(** * EasyTargetScan 0.2: a model of the batch driver and its parsers

    The script [5.EasyTargetScan_0.2.py] turns a miRNA FASTA file into a seed
    table, then, for every UTR record, writes a one-row target table, runs the
    TargetScan Perl program, parses the table it produced into graphic
    features and saves a diagram.  This file embeds the script's own logic:

    - the Python string primitives it relies on (slicing, [strip],
      [split], [int], [re.sub], file iteration);
    - [get_color] and the identifier clean-up;
    - [main], written in a small state-and-exception monad over a world made
      of a file system and the trace of the effects performed.

    Boundaries of the model.  Strings are byte strings (Rocq [string]), so
    white space and digits are the ASCII ones.  [int()] is that of
    CPython 3.11 with the default limit on the number of digits.  The collaborators the script
    calls but does not implement are fields of an environment [Env]: the
    shell running the predictor, the plotting library, [os.remove], [repr]
    and the traceback printer.  The two FASTA readers are given as the
    stream of records they yield, possibly ended by an exception.  A file is
    the text Python reads from it, newlines already translated.  Opening a
    file for writing and printing to the console always succeed. *)

From Stdlib Require Import String Ascii ZArith List Lia Bool.
From stdpp Require Import gmap strings pretty.

Open Scope string_scope.
Open Scope list_scope.

(** ** Python string primitives *)

Module Py.

Definition TAB : string := String "009"%char EmptyString.
Definition NL : string := String "010"%char EmptyString.

(** [str.isspace] on the ASCII range: HT, LF, VT, FF, CR, FS, GS, RS, US
    and the space. *)
Definition isspace (c : ascii) : bool :=
  let n := nat_of_ascii c in
  ((9 <=? n)%nat && (n <=? 13)%nat) || ((28 <=? n)%nat && (n <=? 32)%nat).

Fixpoint lstrip (s : string) : string :=
  match s with
  | EmptyString => EmptyString
  | String c s' => if isspace c then lstrip s' else s
  end.

Fixpoint rstrip (s : string) : string :=
  match s with
  | EmptyString => EmptyString
  | String c s' =>
      match rstrip s' with
      | EmptyString => if isspace c then EmptyString else String c EmptyString
      | r => String c r
      end
  end.

(** [s.strip()] *)
Definition strip (s : string) : string := rstrip (lstrip s).

(** [s.split("\t")]: never empty, [""] gives [[""]]. *)
Fixpoint split_tab (s : string) : list string :=
  match s with
  | EmptyString => [EmptyString]
  | String c s' =>
      if Ascii.eqb c "009" then EmptyString :: split_tab s'
      else match split_tab s' with
           | h :: t => String c h :: t
           | [] => [String c EmptyString]
           end
  end.

(** [s[start:stop]] for non-negative bounds: out-of-range bounds are
    clipped, the slice is never an error. *)
Definition py_slice (start stop : nat) (s : string) : string :=
  substring start (stop - start) s.

(** Iterating over a text file: each line keeps its newline, the last one
    may lack it, the empty file has no line. *)
Fixpoint file_lines (s : string) : list string :=
  match s with
  | EmptyString => []
  | String c s' =>
      if Ascii.eqb c "010" then String c EmptyString :: file_lines s'
      else match file_lines s' with
           | l :: ls => String c l :: ls
           | [] => [String c EmptyString]
           end
  end.

(** [re.sub(r'mmu-', '', s)]: every occurrence, scanning from the left. *)
Fixpoint sub_mmu (s : string) : string :=
  match s with
  | String "m" (String "m" (String "u" (String "-" rest))) => sub_mmu rest
  | String c s' => String c (sub_mmu s')
  | EmptyString => EmptyString
  end.

(** The class [[a-zA-Z0-9_-]] of the clean-up pattern. *)
Definition id_char (c : ascii) : bool :=
  let n := nat_of_ascii c in
  ((97 <=? n)%nat && (n <=? 122)%nat) || ((65 <=? n)%nat && (n <=? 90)%nat)
  || ((48 <=? n)%nat && (n <=? 57)%nat) || Ascii.eqb c "_" || Ascii.eqb c "-".

(** [re.sub(r'[^a-zA-Z0-9_-]', '_', s)] *)
Fixpoint sanitize (s : string) : string :=
  match s with
  | EmptyString => EmptyString
  | String c s' => String (if id_char c then c else "_"%char) (sanitize s')
  end.

(** Exceptions the script can meet; all are subclasses of [Exception]. *)
Inductive exn : Type :=
| StopIteration
| IndexError
| ValueError (literal : string)
| DigitLimitError (digits : nat)   (* the ValueError of the digit limit *)
| OtherError (msg : string).

Inductive result (A : Type) : Type :=
| Ok (a : A)
| Raise (e : exn).
Arguments Ok {A} a.
Arguments Raise {A} e.

Definition is_digit (c : ascii) : bool :=
  let n := nat_of_ascii c in (48 <=? n)%nat && (n <=? 57)%nat.

Definition digit_val (c : ascii) : Z := Z.of_nat (nat_of_ascii c - 48).

(** The white space [int()] skips around a literal: HT, LF, VT, FF, CR and
    the space.  Unlike [str.strip] it does not skip FS, GS, RS and US. *)
Definition int_space (c : ascii) : bool :=
  let n := nat_of_ascii c in
  ((9 <=? n)%nat && (n <=? 13)%nat) || (n =? 32)%nat.

Fixpoint skip_space (s : string) : string :=
  match s with
  | EmptyString => EmptyString
  | String c s' => if int_space c then skip_space s' else s
  end.

(** What the scan of the digits has just read. *)
Inductive scan_state : Type := AtStart | AfterDigit | AfterUnderscore.

(** The run of decimal digits at the front of [s], in which single
    underscores may stand between two digits: its value, the number of its
    digits and what follows it; [None] for a misplaced underscore. *)
Fixpoint scan_digits (s : string) (acc : Z) (digits : nat) (prev : scan_state)
  : option (Z * nat * string) :=
  match s with
  | EmptyString =>
      match prev with
      | AfterUnderscore => None
      | _ => Some (acc, digits, s)
      end
  | String c s' =>
      if is_digit c then
        scan_digits s' (10 * acc + digit_val c) (S digits) AfterDigit
      else if Ascii.eqb c "_" then
        match prev with
        | AfterDigit => scan_digits s' acc digits AfterUnderscore
        | _ => None
        end
      else
        match prev with
        | AfterUnderscore => None
        | _ => Some (acc, digits, s)
        end
  end.

(** [sys.get_int_max_str_digits()], at its default. *)
Definition int_max_str_digits : nat := 4300.

(** [int(x)] on a string, as CPython 3.11 reads it: white space, an optional
    sign, the digits, white space, the end.  A literal with more digits than
    the limit is refused before what follows the digits is looked at; any
    other defect is a [ValueError] carrying the literal. *)
Definition py_int (x : string) : result Z :=
  let '(negative, body) :=
    match skip_space x with
    | String "-" s' => (true, s')
    | String "+" s' => (false, s')
    | s => (false, s)
    end in
  match scan_digits body 0 0 AtStart with
  | None => Raise (ValueError x)
  | Some (value, digits, rest) =>
      if (int_max_str_digits <? digits)%nat then Raise (DigitLimitError digits)
      else if (digits =? 0)%nat then Raise (ValueError x)
      else match skip_space rest with
           | EmptyString => Ok (if negative : bool then (- value)%Z else value)
           | _ => Raise (ValueError x)
           end
  end.

(** [content[i]] *)
Definition getitem (content : list string) (i : nat) : result string :=
  match content !! i with
  | Some x => Ok x
  | None => Raise IndexError
  end.

End Py.
Export Py.

(** ** Color lookup *)

Definition color_table : gmap string string :=
  list_to_map [("6mer", "#00ff99"); ("7mer-1a", "#9999ff");
               ("7mer-m8", "#ff66cc"); ("8mer-1a", "#ff0000")].

Definition get_color (seed_match_type : string) : string :=
  default "#ccccff" (color_table !! seed_match_type).

(** ** Data *)

(** A record read by [SeqIO.parse]: [rec_id] is [.id], [rec_seq] is
    [str(.seq)]. *)
Record SeqRecord : Type := { rec_id : string; rec_seq : string }.

(** A FASTA reader: the records it yields, then either the end of the file or
    an exception raised while reading on. *)
Record Stream : Type := { items : list SeqRecord; failure : option exn }.

Record GraphicFeature : Type :=
  { start : Z; end_ : Z; strand : Z; color : string; label : string }.

(** What the script hands to the plotting library for one target. *)
Record Figure : Type :=
  { sequence_length : nat;
    features : list GraphicFeature;
    figure_width : nat;
    title : string;
    legend_handles : list (string * string);
    dpi : nat }.

(** The command line: [-utr], [-mir], [-output], [-Taxon]. *)
Record Args : Type :=
  { utr : Stream; mir : Stream; output : string; Taxon : Z }.

(** ** The world and the effects *)

Inductive Event : Type :=
| EPrint (text : string)                 (* print(text) *)
| ETruncate (path : string)              (* open(path, 'w') *)
| EWrite (path data : string)            (* f.write(data) on an open file *)
| EExec (cmd : string)                   (* subprocess.Popen(cmd, shell=True) *)
| ESavefig (path : string) (fig : Figure)(* plt.savefig(path) *)
| ERemove (path : string).               (* os.remove(path) *)

Record World : Type :=
  { fs : gmap string string;             (* path -> content *)
    trace : list Event }.                (* effects so far, oldest first *)

(** The collaborators the script calls. *)
Record Env : Type :=
  { (* the shell: return code, merged stdout/stderr, files afterwards *)
    run_cmd : string -> gmap string string -> Z * string * gmap string string;
    (* plotting and saving one figure: the image bytes, or an exception *)
    render : string -> Figure -> result string;
    (* os.remove: None when the file was removed *)
    os_remove : string -> gmap string string -> option exn;
    (* repr() of a string *)
    py_repr : string -> string;
    (* the text traceback.print_exc writes for the exception being handled *)
    format_exc : exn -> string }.

(** [str(e)] *)
Definition str_exn (E : Env) (e : exn) : string :=
  match e with
  | StopIteration => ""
  | IndexError => "list index out of range"
  | ValueError lit => "invalid literal for int() with base 10: " +:+ py_repr E lit
  | DigitLimitError digits =>
      "Exceeds the limit (" +:+ pretty int_max_str_digits
      +:+ " digits) for integer string conversion: value has " +:+ pretty digits
      +:+ " digits; use sys.set_int_max_str_digits() to increase the limit"
  | OtherError msg => msg
  end.

(** Computations: they read and change the world and return or raise. *)
Definition M (A : Type) : Type := World -> World * result A.

Definition ret {A} (a : A) : M A := fun w => (w, Ok a).
Definition raise {A} (e : exn) : M A := fun w => (w, Raise e).
Definition bind {A B} (m : M A) (k : A -> M B) : M B :=
  fun w => match m w with
           | (w1, Ok a) => k a w1
           | (w1, Raise e) => (w1, Raise e)
           end.

Notation "x <- m ;; k" := (bind m (fun x => k))
  (at level 100, m at next level, right associativity).
Notation "m ;;; k" := (bind m (fun _ => k))
  (at level 100, right associativity).

(** [try: m  except <catches> as e: handler e] *)
Definition try_except {A} (catches : exn -> bool) (m : M A) (handler : exn -> M A)
  : M A :=
  fun w => match m w with
           | (w1, Raise e) => if catches e then handler e w1 else (w1, Raise e)
           | done => done
           end.

(** [try: m  finally: f] *)
Definition try_finally {A} (m : M A) (f : M unit) : M A :=
  fun w => match m w with
           | (w1, r) => match f w1 with
                        | (w2, Ok _) => (w2, r)
                        | (w2, Raise e) => (w2, Raise e)
                        end
           end.

Definition emit (ev : Event) (w : World) : World :=
  {| fs := fs w; trace := trace w ++ [ev] |}.

Definition print (text : string) : M unit :=
  fun w => (emit (EPrint text) w, Ok tt).

(** [open(path, 'w')]: the file is created or emptied. *)
Definition open_w (path : string) : M unit :=
  fun w => ({| fs := <[path := ""]> (fs w); trace := trace w ++ [ETruncate path] |}, Ok tt).

(** [f.write(data)], also on a file opened with ['a']: the data goes to the
    end of the file. *)
Definition file_write (path data : string) : M unit :=
  fun w => ({| fs := <[path := default "" (fs w !! path) +:+ data]> (fs w);
               trace := trace w ++ [EWrite path data] |}, Ok tt).

(** [os.path.exists(path)] *)
Definition path_exists (path : string) : M bool :=
  fun w => (w, Ok (bool_decide (is_Some (fs w !! path)))).

(** The whole text of [open(path)]. *)
Definition read_text (path : string) : M string :=
  fun w => match fs w !! path with
           | Some text => (w, Ok text)
           | None => (w, Raise (OtherError ("No such file or directory: " +:+ path)))
           end.

(** [p = subprocess.Popen(...); stdout, _ = p.communicate()] *)
Definition popen (E : Env) (cmd : string) : M (Z * string) :=
  fun w => match run_cmd E cmd (fs w) with
           | (returncode, stdout, fs') =>
               ({| fs := fs'; trace := trace w ++ [EExec cmd] |}, Ok (returncode, stdout))
           end.

(** [record.plot(...)] up to [plt.savefig(path)]. *)
Definition savefig (E : Env) (path : string) (fig : Figure) : M unit :=
  fun w => match render E path fig with
           | Ok bytes => ({| fs := <[path := bytes]> (fs w);
                             trace := trace w ++ [ESavefig path fig] |}, Ok tt)
           | Raise e => (w, Raise e)
           end.

Definition remove (E : Env) (path : string) : M unit :=
  fun w => match os_remove E path (fs w) with
           | None => ({| fs := delete path (fs w); trace := trace w ++ [ERemove path] |}, Ok tt)
           | Some e => (emit (ERemove path) w, Raise e)
           end.

(** [for x in stream: body x] *)
Fixpoint for_each {A} (xs : list A) (ending : option exn) (body : A -> M unit)
  : M unit :=
  match xs with
  | [] => match ending with
          | None => ret tt
          | Some e => raise e
          end
  | x :: rest => body x ;;; for_each rest ending body
  end.

Definition any_exception (e : exn) : bool := true.
Definition is_IndexError (e : exn) : bool :=
  match e with IndexError => true | _ => false end.

(** ** The script *)

Definition log_error (E : Env) (error_msg : string) (e : exn) : M unit :=
  file_write "EasyTargetScan_error.log" ("[ERROR] " +:+ error_msg +:+ NL) ;;;
  file_write "EasyTargetScan_error.log" (format_exc E e).

Definition seed_size : nat := 7.
Definition path_to_targetscan : string := "targetscan_70.pl".
Definition slen : nat := seed_size + 1.

Definition mir_seed (miR : SeqRecord) : string := py_slice 1 slen (rec_seq miR).

Definition seed_row (taxon : Z) (miR : SeqRecord) : string :=
  rec_id miR +:+ TAB +:+ mir_seed miR +:+ TAB +:+ pretty taxon +:+ NL.

(** Lines 50-58: the miRNA seed table. *)
Definition seed_step (taxon : Z) (miR : SeqRecord) : M unit :=
  try_except is_IndexError
    (file_write "miR_seeds_temp.txt" (seed_row taxon miR))
    (fun _ => print ("警告: miRNA序列过短 (" +:+ rec_id miR +:+ ")，已跳过")).

Definition seed_extractor (taxon : Z) (mirna : Stream) : M unit :=
  open_w "miR_seeds_temp.txt" ;;;
  for_each (items mirna) (failure mirna) (seed_step taxon).

(** Lines 108-117: one data row of the predictor's table. *)
Definition parse_row (line : string) : result GraphicFeature :=
  let content := split_tab (strip line) in
  match getitem content 3 with Raise e => Raise e | Ok c3 =>
  match py_int c3 with Raise e => Raise e | Ok start_ =>
  match getitem content 4 with Raise e => Raise e | Ok c4 =>
  match py_int c4 with Raise e => Raise e | Ok stop_ =>
  match getitem content 8 with Raise e => Raise e | Ok c8 =>
  match getitem content 1 with Raise e => Raise e | Ok c1 =>
    Ok {| start := start_; end_ := stop_; strand := 1;
          color := get_color c8; label := sub_mmu c1 |}
  end end end end end end.

(** Lines 106-120: the loop over the data rows. *)
Fixpoint parse_lines (E : Env) (lines : list string) (features : list GraphicFeature)
  : M (list GraphicFeature) :=
  match lines with
  | [] => ret features
  | line :: rest =>
      match parse_row line with
      | Ok feature => parse_lines E rest (features ++ [feature])
      | Raise e =>
          print ("解析行错误: " +:+ strip line +:+ " | 错误: " +:+ str_exn E e) ;;;
          parse_lines E rest features
      end
  end.

(** Lines 103-120: skip the header with [next(fp)], then parse the rows. *)
Definition feature_parser (E : Env) (text : string) : M (list GraphicFeature) :=
  match file_lines text with
  | [] => raise StopIteration
  | _ :: rows => parse_lines E rows []
  end.

Definition legend : list (string * string) :=
  [("#00ff99", "6mer"); ("#9999ff", "7mer-1a");
   ("#ff66cc", "7mer-m8"); ("#ff0000", "8mer-1a")].

(** Lines 63-141: the body of the [try] for one UTR record. *)
Definition utr_job (E : Env) (taxon : Z) (output_file : string) (u : SeqRecord)
  : M unit :=
  if (String.length (rec_seq u) <? 20)%nat then
    print ("跳过短UTR序列: " +:+ rec_id u +:+ " (长度="
           +:+ pretty (String.length (rec_seq u)) +:+ ")")
  else
    let clean_utr_id := sanitize (rec_id u) in
    let output_file_utr := clean_utr_id +:+ "_" +:+ output_file in
    open_w "UTRs_temp.txt" ;;;
    file_write "UTRs_temp.txt"
      (rec_id u +:+ TAB +:+ pretty taxon +:+ TAB +:+ rec_seq u +:+ NL) ;;;
    let cmd := "perl " +:+ path_to_targetscan
               +:+ " miR_seeds_temp.txt UTRs_temp.txt " +:+ output_file_utr in
    print (NL +:+ "正在处理UTR: " +:+ rec_id u) ;;;
    print ("执行命令: " +:+ cmd) ;;;
    p <- popen E cmd ;;
    let '(returncode, stdout) := p in
    if negb (returncode =? 0)%Z then
      print ("错误: Perl执行失败 (返回码=" +:+ pretty returncode +:+ ")") ;;;
      print "错误日志:" ;;;
      print stdout
    else
      present <- path_exists output_file_utr ;;
      if negb present then
        print ("严重错误: 未生成输出文件 " +:+ output_file_utr)
      else
        text <- read_text output_file_utr ;;
        features <- feature_parser E text ;;
        savefig E (output_file_utr +:+ ".png")
          {| sequence_length := String.length (rec_seq u);
             features := features;
             figure_width := 12;
             title := rec_id u +:+ " sequence";
             legend_handles := legend;
             dpi := 300 |}.

(** Lines 62-145: one iteration of the UTR loop. *)
Definition process_utr (E : Env) (taxon : Z) (output_file : string) (u : SeqRecord)
  : M unit :=
  try_except any_exception
    (utr_job E taxon output_file u)
    (fun e => log_error E ("处理UTR " +:+ rec_id u +:+ " 时发生错误: " +:+ str_exn E e) e).

Definition temp_files : list string := ["miR_seeds_temp.txt"; "UTRs_temp.txt"].

(** Lines 149-155: the [finally] block. *)
Fixpoint cleanup_files (E : Env) (files : list string) : M unit :=
  match files with
  | [] => ret tt
  | f :: rest =>
      present <- path_exists f ;;
      (if present then
         try_except any_exception
           (remove E f)
           (fun e => print ("清理临时文件失败: " +:+ f +:+ " | 错误: " +:+ str_exn E e))
       else ret tt) ;;;
      cleanup_files E rest
  end.

Definition cleanup (E : Env) : M unit := cleanup_files E temp_files.

(** Lines 39-155. *)
Definition main_body (E : Env) (args : Args) : M unit :=
  seed_extractor (Taxon args) (mir args) ;;;
  for_each (items (utr args)) (failure (utr args))
    (process_utr E (Taxon args) (output args)).

Definition main (E : Env) (args : Args) : M unit :=
  try_finally (main_body E args) (cleanup E).

(** ** Specification-side views

    What the loops are expected to compute, written as plain list functions;
    the theorems below relate the script to them. *)

(** The rows of the seed table for a list of records, in order. *)
Fixpoint seed_rows (taxon : Z) (recs : list SeqRecord) : string :=
  match recs with
  | [] => ""
  | miR :: rest => seed_row taxon miR +:+ seed_rows taxon rest
  end.

(** How a loop over a stream ends. *)
Definition stream_end (ending : option exn) : result unit :=
  match ending with
  | None => Ok tt
  | Some e => Raise e
  end.

Definition seed_writes (taxon : Z) (recs : list SeqRecord) : list Event :=
  map (fun miR => EWrite "miR_seeds_temp.txt" (seed_row taxon miR)) recs.

(** Every character of [s] passes [p]. *)
Fixpoint all_chars (p : ascii -> bool) (s : string) : bool :=
  match s with
  | EmptyString => true
  | String c s' => p c && all_chars p s'
  end.

(** The features of the rows that parse, in file order. *)
Fixpoint features_of (lines : list string) : list GraphicFeature :=
  match lines with
  | [] => []
  | line :: rest =>
      match parse_row line with
      | Ok feature => feature :: features_of rest
      | Raise _ => features_of rest
      end
  end.

(** The message printed for a row that raised [e]. *)
Definition row_diagnostic (E : Env) (line : string) (e : exn) : Event :=
  EPrint ("解析行错误: " +:+ strip line +:+ " | 错误: " +:+ str_exn E e).

(** The messages of the rows that do not parse, in file order. *)
Fixpoint diagnostics (E : Env) (lines : list string) : list Event :=
  match lines with
  | [] => []
  | line :: rest =>
      match parse_row line with
      | Ok _ => diagnostics E rest
      | Raise e => row_diagnostic E line e :: diagnostics E rest
      end
  end.

(** A row fails to parse: after [strip] and [split] it has fewer than nine
    columns, or its start or end column is not an integer literal. *)
Definition row_fails (line : string) : Prop :=
  let content := split_tab (strip line) in
  length content < 9 \/
  (exists c e, content !! 3 = Some c /\ py_int c = Raise e) \/
  (exists c e, content !! 4 = Some c /\ py_int c = Raise e).

(** A tab-separated row made of the given cells. *)
Definition tsv (cols : list string) : string := String.concat TAB cols.

Definition not_newline (c : ascii) : bool := negb (Ascii.eqb c "010").
Definition not_tab (c : ascii) : bool := negb (Ascii.eqb c "009").

(** A cell of a well-formed table holds neither a tab nor a newline. *)
Definition cell (c : string) : Prop :=
  all_chars not_tab c = true /\ all_chars not_newline c = true.

(** A stand-in for the collaborators: the predictor exits with [returncode]
    after printing [stdout] and writing the given files; plotting and
    removing files succeed. *)
Definition stub_env (returncode : Z) (stdout : string)
    (written : list (string * string)) : Env :=
  {| run_cmd := fun _ files =>
       (returncode, stdout, foldr (fun kv m => <[kv.1 := kv.2]> m) files written);
     render := fun _ _ => Ok "PNG";
     os_remove := fun _ _ => None;
     py_repr := fun s => "'" +:+ s +:+ "'";
     format_exc := fun _ => "Traceback (most recent call last):" +:+ NL |}.

Definition empty_world : World := {| fs := ∅; trace := [] |}.

(** The names the script gives to the pieces of one job. *)
Definition output_file_utr_of (output_file : string) (u : SeqRecord) : string :=
  sanitize (rec_id u) +:+ "_" +:+ output_file.

Definition predictor_cmd (output_file : string) (u : SeqRecord) : string :=
  "perl " +:+ path_to_targetscan +:+ " miR_seeds_temp.txt UTRs_temp.txt "
  +:+ output_file_utr_of output_file u.

Definition target_row (taxon : Z) (u : SeqRecord) : string :=
  rec_id u +:+ TAB +:+ pretty taxon +:+ TAB +:+ rec_seq u +:+ NL.

(** The world when the predictor is about to be started for [u]: the target
    table holds the row of [u] and the two progress lines are printed. *)
Definition job_started (taxon : Z) (output_file : string) (u : SeqRecord)
    (w : World) : World :=
  emit (EPrint ("执行命令: " +:+ predictor_cmd output_file u))
    (emit (EPrint (NL +:+ "正在处理UTR: " +:+ rec_id u))
       {| fs := <["UTRs_temp.txt" := target_row taxon u]> (fs w);
          trace := trace w ++ [ETruncate "UTRs_temp.txt";
                               EWrite "UTRs_temp.txt" (target_row taxon u)] |}).

(** The world after [log_error] has appended [text] to the error log. *)
Definition logged (text : string) (w : World) : World :=
  {| fs := <["EasyTargetScan_error.log" :=
               default "" (fs w !! "EasyTargetScan_error.log") +:+ text]> (fs w);
     trace := trace w |}.

(** The message of the [finally] block for a file it could not remove. *)
Definition removal_report (E : Env) (f : string) (e : exn) : Event :=
  EPrint ("清理临时文件失败: " +:+ f +:+ " | 错误: " +:+ str_exn E e).

(** One round of the [finally] block, for the temp file [f]. *)
Definition after_remove (E : Env) (f : string) (w : World) : World :=
  match fs w !! f with
  | None => w
  | Some _ =>
      match os_remove E f (fs w) with
      | None => {| fs := delete f (fs w); trace := trace w ++ [ERemove f] |}
      | Some e => emit (removal_report E f e) (emit (ERemove f) w)
      end
  end.

(** How [main] ends: with the exception of the reader that failed, if any. *)
Definition main_result (args : Args) : result unit :=
  match failure (mir args) with
  | Some e => Raise e
  | None => stream_end (failure (utr args))
  end.

(** The figure the script draws for [u] from the features it parsed. *)
Definition job_figure (u : SeqRecord) (feats : list GraphicFeature) : Figure :=
  {| sequence_length := String.length (rec_seq u);
     features := feats;
     figure_width := 12;
     title := rec_id u +:+ " sequence";
     legend_handles := legend;
     dpi := 300 |}.

(** The five colors [get_color] can return. *)
Definition palette : list string :=
  ["#00ff99"; "#9999ff"; "#ff66cc"; "#ff0000"; "#ccccff"].

Definition is_exec (ev : Event) : bool :=
  match ev with EExec _ => true | _ => false end.

Definition is_savefig (ev : Event) : bool :=
  match ev with ESavefig _ _ => true | _ => false end.

Definition is_print (ev : Event) : bool :=
  match ev with EPrint _ => true | _ => false end.

(** How many events of a kind a trace holds. *)
Fixpoint count (kind : Event -> bool) (evs : list Event) : nat :=
  match evs with
  | [] => 0
  | ev :: rest => (if kind ev then 1 else 0) + count kind rest
  end.

(** The records the UTR loop does not skip. *)
Definition long_enough (u : SeqRecord) : bool :=
  negb (String.length (rec_seq u) <? 20)%nat.

(** The last character of a string, to tell file names apart by their
    extension. *)
Fixpoint last_char (s : string) : option ascii :=
  match s with
  | EmptyString => None
  | String c EmptyString => Some c
  | String _ s' => last_char s'
  end.

(** A predictor stand-in for the examples: it writes [table] to the output
    file of the record [u] and exits with 0. *)
Definition table_env (output_file : string) (u : SeqRecord) (table : string) : Env :=
  stub_env 0 "" [(output_file_utr_of output_file u, table)].

Definition demo_utr : SeqRecord :=
  {| rec_id := "utr|1"; rec_seq := "ACGUACGUACGUACGUACGUACGUA" |}.

Definition demo_table : string :=
  tsv ["a_Gene_ID"; "miRNA_family_ID"; "species_ID"; "MSA_start"; "MSA_end";
       "UTR_start"; "UTR_end"; "Group_num"; "Site_type"] +:+ NL
  +:+ tsv ["utr|1"; "mmu-miR-1"; "10090"; "10"; "17"; "10"; "17"; "1"; "7mer-m8"]
  +:+ NL.

(** The same stand-in with a plotting library that always raises. *)
Definition broken_plot_env (output_file : string) (u : SeqRecord) (table : string)
  : Env :=
  {| run_cmd := run_cmd (table_env output_file u table);
     render := fun _ _ => Raise (OtherError "cannot save figure");
     os_remove := fun _ _ => None;
     py_repr := py_repr (table_env output_file u table);
     format_exc := format_exc (table_env output_file u table) |}.

Definition not_m (c : ascii) : bool := negb (Ascii.eqb c "m").


(** A stand-in whose plotting library stores the title of the figure as the
    image, so that two images can be told apart. *)
Definition titled_env (output_file : string) (u : SeqRecord) (table : string) : Env :=
  {| run_cmd := run_cmd (table_env output_file u table);
     render := fun _ fig => Ok (title fig);
     os_remove := fun _ _ => None;
     py_repr := py_repr (table_env output_file u table);
     format_exc := format_exc (table_env output_file u table) |}.

(** ** Theorems *)

#[local] Arguments String.append !_ _ / : simpl nomatch.

(** *** Identifier clean-up *)

Lemma id_char_underscore : id_char "_" = true.
Proof. reflexivity. Qed.

Lemma sanitize_all_id_chars (s : string) : all_chars id_char (sanitize s) = true.
Proof.
  induction s as [|c s IH]; simpl; [reflexivity|].
  rewrite IH, andb_true_r.
  destruct (id_char c) eqn:Hc; [exact Hc | exact id_char_underscore].
Qed.

Lemma sanitize_fixed (s : string) : all_chars id_char s = true -> sanitize s = s.
Proof.
  induction s as [|c s IH]; simpl; [reflexivity|].
  intros [Hc Hs]%andb_true_iff. rewrite Hc, (IH Hs). reflexivity.
Qed.

(** C9: the clean-up of identifiers is idempotent, and an identifier made
    only of characters of [[A-Za-z0-9_-]] is returned unchanged. *)
Theorem sanitize_idempotent :
  (forall s : string, sanitize (sanitize s) = sanitize s) /\
  (forall s : string, all_chars id_char s = true -> sanitize s = s).
Proof.
  split.
  - intros s. apply sanitize_fixed, sanitize_all_id_chars.
  - exact sanitize_fixed.
Qed.

Lemma sanitize_idempotent_witness :
  sanitize (sanitize "NM_001.3|utr 5'") = sanitize "NM_001.3|utr 5'" /\
  sanitize "NM_001-3_utr" = "NM_001-3_utr".
Proof.
  split.
  - apply (proj1 sanitize_idempotent).
  - apply (proj2 sanitize_idempotent). reflexivity.
Defined.

(** *** Color lookup *)

(** C8: [get_color] is total; each of the four known match types gets its
    table color and every other string gets the fallback ["#ccccff"]. *)
Theorem get_color_total :
  get_color "6mer" = "#00ff99" /\ get_color "7mer-1a" = "#9999ff" /\
  get_color "7mer-m8" = "#ff66cc" /\ get_color "8mer-1a" = "#ff0000" /\
  forall s : string,
    s <> "6mer" -> s <> "7mer-1a" -> s <> "7mer-m8" -> s <> "8mer-1a" ->
    get_color s = "#ccccff".
Proof.
  repeat split; try reflexivity.
  intros s H1 H2 H3 H4. unfold get_color, color_table. simpl.
  rewrite !lookup_insert_ne, lookup_empty by congruence. reflexivity.
Qed.

Lemma get_color_total_witness :
  get_color "8mer" = "#ccccff".
Proof.
  apply (proj2 (proj2 (proj2 (proj2 get_color_total)))); discriminate.
Defined.

(** *** SeedExtractor *)

Section SeedExtractor.

Variable taxon : Z.

Local Arguments seed_row : simpl never.

Lemma append_assoc (a b c : string) : (a +:+ b) +:+ c = a +:+ (b +:+ c).
Proof. induction a as [|x a IH]; simpl; [reflexivity | now rewrite IH]. Qed.

Lemma append_empty_r (a : string) : a +:+ "" = a.
Proof. induction a as [|x a IH]; simpl; [reflexivity | now rewrite IH]. Qed.

Lemma substring_length (s : string) (n m : nat) :
  n + m <= String.length s -> String.length (substring n m s) = m.
Proof.
  revert n m. induction s as [|c s IH]; intros n m H; simpl in H.
  - assert (n = 0 /\ m = 0) as [-> ->] by lia. reflexivity.
  - destruct n as [|n]; destruct m as [|m]; simpl; try reflexivity.
    + f_equal. apply IH. lia.
    + apply IH. lia.
    + apply IH. lia.
Qed.

Lemma seed_rows_app (l1 l2 : list SeqRecord) :
  seed_rows taxon (l1 ++ l2) = seed_rows taxon l1 +:+ seed_rows taxon l2.
Proof.
  induction l1 as [|r l1 IH]; simpl; [reflexivity|].
  now rewrite IH, append_assoc.
Qed.

(** The [except IndexError] branch is never taken: slicing cannot raise. *)
Lemma seed_step_writes (miR : SeqRecord) (w : World) :
  seed_step taxon miR w =
  file_write "miR_seeds_temp.txt" (seed_row taxon miR) w.
Proof. reflexivity. Qed.

Lemma seed_loop (recs : list SeqRecord) (ending : option exn) :
  forall (w : World) (content : string),
    fs w !! "miR_seeds_temp.txt" = Some content ->
    for_each recs ending (seed_step taxon) w =
    ({| fs := <["miR_seeds_temp.txt" := content +:+ seed_rows taxon recs]> (fs w);
        trace := trace w ++ seed_writes taxon recs |},
     stream_end ending).
Proof.
  induction recs as [|miR rest IH]; intros w content Hw; simpl.
  - rewrite append_empty_r, app_nil_r, (insert_id _ _ _ Hw).
    destruct w, ending; reflexivity.
  - unfold bind at 1. rewrite seed_step_writes. unfold file_write at 1.
    erewrite IH by (simpl; apply lookup_insert_eq).
    simpl. rewrite Hw. simpl.
    rewrite insert_insert_eq, append_assoc, <- app_assoc. reflexivity.
Qed.

Lemma seed_extractor_run (mirna : Stream) (w : World) :
  seed_extractor taxon mirna w =
  ({| fs := <["miR_seeds_temp.txt" := seed_rows taxon (items mirna)]> (fs w);
      trace := trace w ++ ETruncate "miR_seeds_temp.txt" :: seed_writes taxon (items mirna) |},
   stream_end (failure mirna)).
Proof.
  unfold seed_extractor, bind, open_w.
  erewrite seed_loop by (simpl; apply lookup_insert_eq).
  simpl. rewrite insert_insert_eq, <- app_assoc. reflexivity.
Qed.

Lemma mir_seed_length (miR : SeqRecord) :
  slen <= String.length (rec_seq miR) -> String.length (mir_seed miR) = seed_size.
Proof.
  intros H. unfold mir_seed, py_slice. apply substring_length.
  unfold slen, seed_size in *. simpl. lia.
Qed.

Lemma mir_seed_get (miR : SeqRecord) (k : nat) :
  k < seed_size -> get k (mir_seed miR) = get (S k) (rec_seq miR).
Proof.
  intros H. unfold mir_seed, py_slice.
  rewrite substring_correct1 by (unfold slen, seed_size in *; simpl; lia).
  f_equal. lia.
Qed.

End SeedExtractor.

(** C2: a miRNA record with at least [seed_size+1] characters gets exactly one
    row [id TAB seed TAB taxon NL] in the seed table, between the rows of the
    records read before and after it; its seed has [seed_size] characters,
    those at indices 1 to [seed_size] of the sequence. *)
Theorem seed_row_emitted (taxon : Z) (pre post : list SeqRecord) (miR : SeqRecord)
    (ending : option exn) (w : World) :
  slen <= String.length (rec_seq miR) ->
  exists seed : string,
    String.length seed = seed_size /\
    (forall k, k < seed_size -> get k seed = get (S k) (rec_seq miR)) /\
    let row := rec_id miR +:+ TAB +:+ seed +:+ TAB +:+ pretty taxon +:+ NL in
    let w' := fst (seed_extractor taxon
                     {| items := pre ++ miR :: post; failure := ending |} w) in
    fs w' !! "miR_seeds_temp.txt" =
      Some (seed_rows taxon pre +:+ row +:+ seed_rows taxon post) /\
    trace w' = (trace w ++ [ETruncate "miR_seeds_temp.txt"] ++ seed_writes taxon pre
                ++ [EWrite "miR_seeds_temp.txt" row] ++ seed_writes taxon post)%list.
Proof.
  intros Hlen. exists (mir_seed miR).
  split; [now apply mir_seed_length|].
  split; [intros k Hk; now apply mir_seed_get|].
  simpl. rewrite seed_extractor_run. simpl. split.
  - rewrite lookup_insert_eq, seed_rows_app. reflexivity.
  - unfold seed_writes. rewrite map_app. reflexivity.
Qed.

Lemma seed_row_emitted_witness :
  exists seed : string,
    String.length seed = seed_size /\
    (forall k, k < seed_size -> get k seed = get (S k) "UGAGGUAGUAGGUUGUAUAGUU") /\
    let row := "mmu-let-7a" +:+ TAB +:+ seed +:+ TAB +:+ pretty 10090%Z +:+ NL in
    let w' := fst (seed_extractor 10090
                     {| items := [] ++ {| rec_id := "mmu-let-7a";
                                          rec_seq := "UGAGGUAGUAGGUUGUAUAGUU" |} :: [];
                        failure := None |} {| fs := ∅; trace := [] |}) in
    fs w' !! "miR_seeds_temp.txt" =
      Some (seed_rows 10090 [] +:+ row +:+ seed_rows 10090 []) /\
    trace w' = ([] ++ [ETruncate "miR_seeds_temp.txt"] ++ seed_writes 10090 []
                ++ [EWrite "miR_seeds_temp.txt" row] ++ seed_writes 10090 [])%list.
Proof.
  apply (seed_row_emitted 10090 [] []
           {| rec_id := "mmu-let-7a"; rec_seq := "UGAGGUAGUAGGUUGUAUAGUU" |}
           None {| fs := ∅; trace := [] |}).
  vm_compute. lia.
Defined.

(** C1, as the script behaves: no record makes SeedExtractor raise (the loop
    ends as the reader ends), every write to the seed table is the row of a
    record read, and the seed of a record with at least [seed_size+1]
    characters has exactly [seed_size] characters. *)
Theorem seed_extractor_rows (taxon : Z) (mirna : Stream) (w : World) :
  let '(w', r) := seed_extractor taxon mirna w in
  r = stream_end (failure mirna) /\
  (forall ev, In ev (trace w') -> In ev (trace w) \/ ev = ETruncate "miR_seeds_temp.txt" \/
     exists miR, In miR (items mirna) /\
       ev = EWrite "miR_seeds_temp.txt"
              (rec_id miR +:+ TAB +:+ mir_seed miR +:+ TAB +:+ pretty taxon +:+ NL) /\
       (slen <= String.length (rec_seq miR) -> String.length (mir_seed miR) = seed_size)).
Proof.
  rewrite seed_extractor_run. split; [reflexivity|].
  simpl. intros ev [H|H]%in_app_or; [now left|]. right.
  destruct H as [<-|H]; [now left|]. right.
  unfold seed_writes in H. apply in_map_iff in H as (miR & <- & Hin).
  exists miR. split; [exact Hin|]. split; [reflexivity|]. apply mir_seed_length.
Qed.

Lemma seed_extractor_rows_witness :
  let '(w', r) := seed_extractor 10090
                    {| items := [{| rec_id := "mmu-let-7a";
                                    rec_seq := "UGAGGUAGUAGGUUGUAUAGUU" |}];
                       failure := None |} {| fs := ∅; trace := [] |} in
  r = Ok tt /\
  (forall ev, In ev (trace w') -> In ev [] \/ ev = ETruncate "miR_seeds_temp.txt" \/
     exists miR, In miR [{| rec_id := "mmu-let-7a"; rec_seq := "UGAGGUAGUAGGUUGUAUAGUU" |}] /\
       ev = EWrite "miR_seeds_temp.txt"
              (rec_id miR +:+ TAB +:+ mir_seed miR +:+ TAB +:+ pretty 10090%Z +:+ NL) /\
       (slen <= String.length (rec_seq miR) -> String.length (mir_seed miR) = seed_size)).
Proof.
  exact (seed_extractor_rows 10090
           {| items := [{| rec_id := "mmu-let-7a"; rec_seq := "UGAGGUAGUAGGUUGUAUAGUU" |}];
              failure := None |} {| fs := ∅; trace := [] |}).
Defined.

(** C1, as stated, fails: a record of four characters is not skipped, its row
    is written with a seed of three characters and no warning is printed;
    and the seed of a long record has [seed_size] characters, not
    [seed_size+1]. *)
Lemma short_mirna_row_written :
  let short := {| rec_id := "miR-short"; rec_seq := "UGAG" |} in
  let long := {| rec_id := "mmu-let-7a"; rec_seq := "UGAGGUAGUAGGUUGUAUAGUU" |} in
  let '(w', r) := seed_extractor 10090 {| items := [short; long]; failure := None |}
                    {| fs := ∅; trace := [] |} in
  String.length (rec_seq short) < slen /\
  r = Ok tt /\
  trace w' = [ETruncate "miR_seeds_temp.txt";
              EWrite "miR_seeds_temp.txt" ("miR-short" +:+ TAB +:+ "GAG" +:+ TAB +:+ "10090" +:+ NL);
              EWrite "miR_seeds_temp.txt" ("mmu-let-7a" +:+ TAB +:+ "GAGGUAG" +:+ TAB +:+ "10090" +:+ NL)] /\
  String.length "GAG" <> slen /\ String.length "GAGGUAG" <> slen.
Proof.
  vm_compute. repeat split; try lia; discriminate.
Qed.

(** *** FeatureParser *)

Section FeatureParser.

Variable E : Env.

Lemma parse_row_fails (line : string) :
  row_fails line <-> exists e, parse_row line = Raise e.
Proof.
  unfold row_fails, parse_row, getitem.
  set (content := split_tab (strip line)). split.
  - intros [Hlen | [(c & e & Hc & He) | (c & e & Hc & He)]].
    + assert (content !! 8 = None) as H8 by (apply lookup_ge_None; lia).
      rewrite H8.
      destruct (content !! 3) as [c3|]; [|eauto].
      destruct (py_int c3); [|eauto].
      destruct (content !! 4) as [c4|]; [|eauto].
      destruct (py_int c4); eauto.
    + rewrite Hc, He. eauto.
    + rewrite Hc, He.
      destruct (content !! 3) as [c3|]; [|eauto].
      destruct (py_int c3); eauto.
  - intros [e He].
    destruct (content !! 3) as [c3|] eqn:H3;
      [|left; apply lookup_ge_None in H3; lia].
    destruct (py_int c3) eqn:Hi3; [|right; left; eauto].
    destruct (content !! 4) as [c4|] eqn:H4;
      [|left; apply lookup_ge_None in H4; lia].
    destruct (py_int c4) eqn:Hi4; [|right; right; eauto].
    destruct (content !! 8) as [c8|] eqn:H8;
      [|left; apply lookup_ge_None in H8; lia].
    destruct (content !! 1) as [c1|] eqn:H1;
      [discriminate|left; apply lookup_ge_None in H1; lia].
Qed.

(** The loop never raises and leaves the files alone: it appends the
    features of the rows that parse and prints for the others. *)
Lemma parse_lines_run (lines : list string) :
  forall (feats : list GraphicFeature) (w : World),
    parse_lines E lines feats w =
    ({| fs := fs w; trace := trace w ++ diagnostics E lines |},
     Ok (feats ++ features_of lines)).
Proof.
  induction lines as [|line rest IH]; intros feats w; simpl.
  - rewrite !app_nil_r. destruct w; reflexivity.
  - destruct (parse_row line) as [f|e].
    + rewrite IH, <- app_assoc. reflexivity.
    + unfold bind, print, emit. rewrite IH. simpl.
      rewrite <- app_assoc. reflexivity.
Qed.

Lemma features_of_app (l1 l2 : list string) :
  features_of (l1 ++ l2) = features_of l1 ++ features_of l2.
Proof.
  induction l1 as [|line l1 IH]; simpl; [reflexivity|].
  destruct (parse_row line); rewrite IH; reflexivity.
Qed.

Lemma diagnostics_app (l1 l2 : list string) :
  diagnostics E (l1 ++ l2) = diagnostics E l1 ++ diagnostics E l2.
Proof.
  induction l1 as [|line l1 IH]; simpl; [reflexivity|].
  destruct (parse_row line); rewrite IH; reflexivity.
Qed.

End FeatureParser.

(** C7: a data row that fails to parse adds no feature; a message is printed
    for it and the loop goes on, so the result holds the features of the rows
    before and after it, in file order. *)
Theorem failed_row_skipped (E : Env) (before after : list string) (line : string)
    (feats : list GraphicFeature) (w : World) :
  row_fails line ->
  exists e : exn,
    parse_row line = Raise e /\
    parse_lines E (before ++ line :: after) feats w =
    ({| fs := fs w;
        trace := trace w ++ diagnostics E before
                 ++ [EPrint ("解析行错误: " +:+ strip line +:+ " | 错误: " +:+ str_exn E e)]
                 ++ diagnostics E after |},
     Ok (feats ++ features_of before ++ features_of after)).
Proof.
  intros [e He]%parse_row_fails. exists e. split; [exact He|].
  rewrite parse_lines_run, features_of_app, diagnostics_app.
  simpl. rewrite He. reflexivity.
Qed.

(** *** Lines, cells and white space *)

Section Lines.

Lemma all_chars_app (p : ascii -> bool) (a b : string) :
  all_chars p (a +:+ b) = all_chars p a && all_chars p b.
Proof.
  induction a as [|x a IH]; simpl; [reflexivity|].
  now rewrite IH, andb_assoc.
Qed.

Lemma file_lines_first (h rest : string) :
  all_chars not_newline h = true ->
  file_lines (h +:+ NL +:+ rest) = (h +:+ NL) :: file_lines rest.
Proof.
  unfold NL. simpl. induction h as [|x h IH]; simpl; [reflexivity|].
  intros [Hx Hh]%andb_true_iff. unfold not_newline in Hx.
  apply negb_true_iff in Hx. rewrite Hx, (IH Hh). reflexivity.
Qed.

Lemma file_lines_last (r : string) :
  all_chars not_newline r = true -> r <> "" -> file_lines r = [r].
Proof.
  induction r as [|x r IH]; simpl; [congruence|].
  intros [Hx Hr]%andb_true_iff _. unfold not_newline in Hx.
  apply negb_true_iff in Hx. rewrite Hx.
  destruct r as [|y r]; [reflexivity|].
  rewrite IH by (exact Hr || discriminate). reflexivity.
Qed.

Lemma file_lines_last_nl (r : string) :
  all_chars not_newline r = true -> file_lines (r +:+ NL) = [r +:+ NL].
Proof.
  intros Hr. rewrite <- (append_empty_r NL) at 1.
  rewrite file_lines_first by exact Hr. reflexivity.
Qed.

Lemma tsv_cons (c : string) (more : list string) :
  tsv (c :: more) = c +:+ match more with [] => "" | _ => TAB +:+ tsv more end.
Proof.
  unfold tsv. destruct more; simpl; [now rewrite append_empty_r | reflexivity].
Qed.

Lemma tsv_no_newline (cols : list string) :
  Forall cell cols -> all_chars not_newline (tsv cols) = true.
Proof.
  induction 1 as [|c more [_ Hc] _ IH]; [reflexivity|].
  rewrite tsv_cons, all_chars_app, Hc. simpl.
  destruct more; [reflexivity | exact IH].
Qed.

Lemma lstrip_app (a b : string) :
  lstrip a <> "" -> lstrip (a +:+ b) = lstrip a +:+ b.
Proof.
  induction a as [|x a IH]; simpl; [congruence|].
  destruct (isspace x); [exact IH | reflexivity].
Qed.

Lemma lstrip_all_chars (p : ascii -> bool) (a : string) :
  all_chars p a = true -> all_chars p (lstrip a) = true.
Proof.
  induction a as [|x a IH]; simpl; [reflexivity|].
  intros H. destruct (isspace x); [|exact H].
  apply andb_true_iff in H as [_ H]. exact (IH H).
Qed.

Lemma rstrip_cons (c : ascii) (s : string) :
  isspace c = false -> rstrip (String c s) = String c (rstrip s).
Proof. intros H. simpl. rewrite H. destruct (rstrip s); reflexivity. Qed.

Lemma rstrip_app (a b : string) :
  rstrip b <> "" -> rstrip (a +:+ b) = a +:+ rstrip b.
Proof.
  intros Hb. induction a as [|x a IH]; simpl; [reflexivity|].
  rewrite IH. destruct (a +:+ rstrip b) eqn:Hab; [|reflexivity].
  destruct a; simpl in Hab; congruence.
Qed.

Lemma rstrip_app_nonempty (a b : string) :
  rstrip b <> "" -> rstrip (a +:+ b) <> "".
Proof.
  intros Hb. rewrite rstrip_app by exact Hb.
  destruct a; simpl; [exact Hb | discriminate].
Qed.

Lemma rstrip_head (c : ascii) (s : string) :
  rstrip (String c s) = "" \/ exists r, rstrip (String c s) = String c r.
Proof.
  simpl. destruct (rstrip s); [destruct (isspace c)|]; eauto.
Qed.

(** What is left of the end of a row after [rstrip] is empty or still
    starts with the tab that opened it. *)
Lemma rstrip_row_end (more : list string) (ending : string) :
  ending = "" \/ ending = NL ->
  let kept := rstrip (match more with [] => "" | _ => TAB +:+ tsv more end +:+ ending) in
  kept = "" \/ exists r, kept = TAB +:+ r.
Proof.
  intros Hend. destruct more as [|c more].
  - left. destruct Hend as [-> | ->]; reflexivity.
  - destruct (rstrip_head "009" (tsv (c :: more) +:+ ending)) as [H | [r H]];
      [left | right; exists r]; exact H.
Qed.

Lemma split_tab_cell (c rest : string) :
  all_chars not_tab c = true ->
  split_tab (c +:+ TAB +:+ rest) = c :: split_tab rest.
Proof.
  unfold TAB. simpl. induction c as [|x c IH]; simpl; [reflexivity|].
  intros [Hx Hc]%andb_true_iff. unfold not_tab in Hx.
  apply negb_true_iff in Hx. rewrite Hx, (IH Hc). reflexivity.
Qed.

Lemma split_tab_last (c : string) :
  all_chars not_tab c = true -> split_tab c = [c].
Proof.
  induction c as [|x c IH]; simpl; [reflexivity|].
  intros [Hx Hc]%andb_true_iff. unfold not_tab in Hx.
  apply negb_true_iff in Hx. rewrite Hx, (IH Hc). reflexivity.
Qed.

End Lines.

(** *** A well-formed data row *)

Section WellFormedRow.

Variables c1 c2 c3 c6 c7 c8 : string.
Variable more : list string.
Variable ending : string.

Hypothesis cell1 : cell c1.
Hypothesis cell2 : cell c2.
Hypothesis cell3 : cell c3.
Hypothesis cell6 : cell c6.
Hypothesis cell7 : cell c7.
Hypothesis cell8 : cell c8.
Hypothesis cells_more : Forall cell more.
Hypothesis first_cell_visible : lstrip c1 <> "".
Hypothesis line_end : ending = "" \/ ending = NL.

Let cols : list string :=
  c1 :: c2 :: c3 :: "10" :: "17" :: c6 :: c7 :: c8 :: "7mer-m8" :: more.

Let row_end : string :=
  match more with [] => "" | _ => TAB +:+ tsv more end +:+ ending.

Lemma literal_cells : cell "10" /\ cell "17" /\ cell "7mer-m8".
Proof. repeat split. Qed.

Lemma cols_cells : Forall cell cols.
Proof.
  destruct literal_cells as (H10 & H17 & Hm8).
  unfold cols. repeat (constructor; [assumption|]). exact cells_more.
Qed.

Lemma row_shape :
  tsv cols +:+ ending =
  c1 +:+ TAB +:+ c2 +:+ TAB +:+ c3 +:+ TAB +:+ "10" +:+ TAB +:+ "17" +:+ TAB
  +:+ c6 +:+ TAB +:+ c7 +:+ TAB +:+ c8 +:+ TAB +:+ "7mer-m8" +:+ row_end.
Proof.
  unfold cols, row_end. rewrite !tsv_cons. cbn iota.
  rewrite !append_assoc. reflexivity.
Qed.

Lemma rstrip_match_type (s : string) :
  rstrip ("7mer-m8" +:+ s) = "7mer-m8" +:+ rstrip s.
Proof.
  change ("7mer-m8" +:+ s)
    with (String "7" (String "m" (String "e" (String "r" (String "-"
           (String "m" (String "8" s))))))).
  rewrite !rstrip_cons by reflexivity. reflexivity.
Qed.

Lemma rstrip_match_type_nonempty (s : string) : rstrip ("7mer-m8" +:+ s) <> "".
Proof. rewrite rstrip_match_type. discriminate. Qed.

Ltac rstrip_nonempty :=
  first [ apply rstrip_match_type_nonempty
        | apply rstrip_app_nonempty; rstrip_nonempty ].

Lemma row_stripped :
  strip (tsv cols +:+ ending) =
  lstrip c1 +:+ TAB +:+ c2 +:+ TAB +:+ c3 +:+ TAB +:+ "10" +:+ TAB +:+ "17" +:+ TAB
  +:+ c6 +:+ TAB +:+ c7 +:+ TAB +:+ c8 +:+ TAB +:+ "7mer-m8" +:+ rstrip row_end.
Proof.
  rewrite row_shape. unfold strip.
  rewrite lstrip_app by exact first_cell_visible.
  generalize row_end. intros s.
  do 16 (rewrite rstrip_app by rstrip_nonempty).
  rewrite rstrip_match_type. reflexivity.
Qed.

Lemma row_content :
  exists extra : list string,
    split_tab (strip (tsv cols +:+ ending)) =
    lstrip c1 :: c2 :: c3 :: "10" :: "17" :: c6 :: c7 :: c8 :: "7mer-m8" :: extra.
Proof.
  rewrite row_stripped.
  destruct cell1 as [T1 _], cell2 as [T2 _], cell3 as [T3 _],
           cell6 as [T6 _], cell7 as [T7 _], cell8 as [T8 _].
  rewrite (split_tab_cell (lstrip c1)) by (apply lstrip_all_chars; exact T1).
  rewrite (split_tab_cell c2), (split_tab_cell c3) by assumption.
  rewrite (split_tab_cell "10"), (split_tab_cell "17") by reflexivity.
  rewrite (split_tab_cell c6), (split_tab_cell c7), (split_tab_cell c8)
    by assumption.
  destruct (rstrip_row_end more ending line_end) as [H | [r H]];
    fold row_end in H; rewrite H.
  - exists []. reflexivity.
  - exists (split_tab r). rewrite (split_tab_cell "7mer-m8") by reflexivity.
    reflexivity.
Qed.

Lemma parse_row_well_formed :
  parse_row (tsv cols +:+ ending) =
  Ok {| start := 10; end_ := 17; strand := 1;
        color := "#ff66cc"; label := sub_mmu c2 |}.
Proof.
  unfold parse_row. destruct row_content as [extra ->]. reflexivity.
Qed.

Lemma row_is_one_line : file_lines (tsv cols +:+ ending) = [tsv cols +:+ ending].
Proof.
  pose proof (tsv_no_newline cols cols_cells) as Hrow.
  assert (tsv cols +:+ ending <> "") as Hne
    by (rewrite row_shape; destruct c1; discriminate).
  destruct line_end as [He | He]; rewrite He in Hne |- *.
  - rewrite append_empty_r in Hne |- *. now apply file_lines_last.
  - apply file_lines_last_nl. exact Hrow.
Qed.

End WellFormedRow.

(** C6: for a table made of a header line and one well-formed data row of at
    least nine cells whose fourth, fifth and ninth cells are [10], [17] and
    [7mer-m8], FeatureParser returns exactly one feature, with start 10,
    end 17, strand +1 and color [#ff66cc], and prints nothing. *)
Theorem single_row_table (E : Env) (header c1 c2 c3 c6 c7 c8 : string)
    (more : list string) (ending : string) (w : World) :
  all_chars not_newline header = true ->
  Forall cell (c1 :: c2 :: c3 :: c6 :: c7 :: c8 :: more) ->
  lstrip c1 <> "" ->
  ending = "" \/ ending = NL ->
  feature_parser E
    (header +:+ NL
     +:+ tsv (c1 :: c2 :: c3 :: "10" :: "17" :: c6 :: c7 :: c8 :: "7mer-m8" :: more)
     +:+ ending) w =
  (w, Ok [{| start := 10; end_ := 17; strand := 1;
             color := "#ff66cc"; label := sub_mmu c2 |}]).
Proof.
  intros Hh Hcells Hc1 Hend.
  repeat (apply Forall_cons in Hcells as [? Hcells]).
  unfold feature_parser.
  rewrite file_lines_first by exact Hh.
  rewrite row_is_one_line by assumption.
  rewrite parse_lines_run. simpl.
  rewrite parse_row_well_formed by assumption.
  rewrite app_nil_r. destruct w; reflexivity.
Qed.

Lemma single_row_table_witness :
  feature_parser (stub_env 0 "" [])
    (tsv ["a_Gene_ID"; "miRNA_family_ID"; "species_ID"; "MSA_start"; "MSA_end";
          "UTR_start"; "UTR_end"; "Group_num"; "Site_type"] +:+ NL
     +:+ tsv ["utr1"; "mmu-miR-1"; "10090"; "10"; "17"; "10"; "17"; "1"; "7mer-m8";
              "x"; "2"]
     +:+ NL) empty_world =
  (empty_world, Ok [{| start := 10; end_ := 17; strand := 1;
                       color := "#ff66cc"; label := sub_mmu "mmu-miR-1" |}]).
Proof.
  apply (single_row_table (stub_env 0 "" []) _ "utr1" "mmu-miR-1" "10090"
           "10" "17" "1" ["x"; "2"] NL empty_world).
  - reflexivity.
  - repeat constructor.
  - discriminate.
  - right. reflexivity.
Defined.

Lemma failed_row_skipped_witness :
  let good := tsv ["utr1"; "mmu-miR-1"; "10090"; "10"; "17"; "10"; "17"; "1"; "7mer-m8"] +:+ NL in
  let bad := tsv ["utr1"; "mmu-miR-2"; "10090"; "ten"; "27"; "20"; "27"; "1"; "6mer"] +:+ NL in
  exists e : exn,
    parse_row bad = Raise e /\
    parse_lines (stub_env 0 "" []) ([good] ++ bad :: [good]) [] empty_world =
    ({| fs := fs empty_world;
        trace := trace empty_world ++ diagnostics (stub_env 0 "" []) [good]
                 ++ [EPrint ("解析行错误: " +:+ strip bad +:+ " | 错误: "
                             +:+ str_exn (stub_env 0 "" []) e)]
                 ++ diagnostics (stub_env 0 "" []) [good] |},
     Ok ([] ++ features_of [good] ++ features_of [good])).
Proof.
  intros good bad.
  apply (failed_row_skipped (stub_env 0 "" []) [good] [good] bad [] empty_world).
  right. left. exists "ten", (ValueError "ten"). split; reflexivity.
Defined.

(** *** BatchOrchestrator: one target *)

Section Orchestrator.

Variable E : Env.
Variable taxon : Z.
Variable output_file : string.

Local Arguments String.append : simpl never.

Lemma bind_print {A} (text : string) (k : unit -> M A) (w : World) :
  bind (print text) k w = k tt (emit (EPrint text) w).
Proof. reflexivity. Qed.

Lemma bind_open_write {A} (path data : string) (k : unit -> M A) (w : World) :
  bind (open_w path) (fun _ => bind (file_write path data) k) w =
  k tt {| fs := <[path := data]> (fs w);
          trace := trace w ++ [ETruncate path; EWrite path data] |}.
Proof.
  unfold bind, open_w, file_write. simpl.
  rewrite lookup_insert_eq, insert_insert_eq, <- app_assoc. reflexivity.
Qed.

Lemma bind_popen {A} (cmd : string) (k : Z * string -> M A) (w : World)
    (returncode : Z) (stdout : string) (files : gmap string string) :
  run_cmd E cmd (fs w) = (returncode, stdout, files) ->
  bind (popen E cmd) k w =
  k (returncode, stdout) {| fs := files; trace := trace w ++ [EExec cmd] |}.
Proof. intros H. unfold bind, popen. rewrite H. reflexivity. Qed.

Lemma log_error_run (msg : string) (e : exn) (w : World) :
  log_error E msg e w =
  ({| fs := fs (logged ("[ERROR] " +:+ msg +:+ NL +:+ format_exc E e) w);
      trace := trace w ++ [EWrite "EasyTargetScan_error.log" ("[ERROR] " +:+ msg +:+ NL);
                           EWrite "EasyTargetScan_error.log" (format_exc E e)] |},
   Ok tt).
Proof.
  unfold log_error, bind, file_write, logged. simpl.
  rewrite lookup_insert_eq, insert_insert_eq, <- app_assoc. simpl.
  rewrite !append_assoc. reflexivity.
Qed.

(** A job that returns lets the loop go on with the next record. *)
Lemma for_each_next {A} (body : A -> M unit) (x : A) (rest : list A)
    (ending : option exn) (w w' : World) :
  body x w = (w', Ok tt) ->
  for_each (x :: rest) ending body w = for_each rest ending body w'.
Proof. intros H. simpl. unfold bind. rewrite H. reflexivity. Qed.

Lemma short_job (u : SeqRecord) (w : World) :
  String.length (rec_seq u) < 20 ->
  process_utr E taxon output_file u w =
  (emit (EPrint ("跳过短UTR序列: " +:+ rec_id u +:+ " (长度="
                 +:+ pretty (String.length (rec_seq u)) +:+ ")")) w,
   Ok tt).
Proof.
  intros Hlen. unfold process_utr, try_except, utr_job.
  destruct (Nat.ltb_spec (String.length (rec_seq u)) 20) as [_|?]; [|lia].
  reflexivity.
Qed.

(** Two worlds that differ only by how the trace is bracketed. *)
Ltac same_world :=
  unfold job_started, emit; cbn [fs trace]; rewrite <- ?app_assoc; reflexivity.

Section Started.

Variable u : SeqRecord.
Variable w : World.
Variable returncode : Z.
Variable stdout : string.
Variable files : gmap string string.

Hypothesis long_enough : 20 <= String.length (rec_seq u).
Hypothesis predictor_ran :
  run_cmd E (predictor_cmd output_file u) (fs (job_started taxon output_file u w))
  = (returncode, stdout, files).

Let ran : World :=
  {| fs := files;
     trace := trace (job_started taxon output_file u w)
              ++ [EExec (predictor_cmd output_file u)] |}.

Lemma job_nonzero_exit :
  returncode <> 0%Z ->
  process_utr E taxon output_file u w =
  ({| fs := files;
      trace := trace ran
               ++ [EPrint ("错误: Perl执行失败 (返回码=" +:+ pretty returncode +:+ ")");
                   EPrint "错误日志:";
                   EPrint stdout] |},
   Ok tt).
Proof.
  intros Hrc. unfold process_utr, try_except, utr_job.
  destruct (Nat.ltb_spec (String.length (rec_seq u)) 20) as [?|_]; [lia|].
  cbv zeta. rewrite bind_open_write, !bind_print.
  erewrite bind_popen by exact predictor_ran.
  cbv beta iota. rewrite (proj2 (Z.eqb_neq returncode 0) Hrc).
  cbn [negb]. rewrite !bind_print. unfold print, ran. same_world.
Qed.

Lemma bind_path_exists {A} (path : string) (k : bool -> M A) (w0 : World) :
  bind (path_exists path) k w0 = k (bool_decide (is_Some (fs w0 !! path))) w0.
Proof. reflexivity. Qed.

Lemma job_missing_output :
  returncode = 0%Z ->
  files !! output_file_utr_of output_file u = None ->
  process_utr E taxon output_file u w =
  ({| fs := files;
      trace := trace ran
               ++ [EPrint ("严重错误: 未生成输出文件 "
                           +:+ output_file_utr_of output_file u)] |},
   Ok tt).
Proof.
  intros Hrc Hnone. unfold process_utr, try_except, utr_job.
  destruct (Nat.ltb_spec (String.length (rec_seq u)) 20) as [?|_]; [lia|].
  cbv zeta. rewrite bind_open_write, !bind_print.
  erewrite bind_popen by exact predictor_ran.
  cbv beta iota. rewrite Hrc. cbn [Z.eqb negb].
  rewrite bind_path_exists. cbn [fs].
  fold (output_file_utr_of output_file u).
  rewrite bool_decide_eq_false_2
    by (rewrite Hnone; intros [? ?]; discriminate).
  cbn [negb]. unfold print, ran. same_world.
Qed.

Lemma job_empty_output :
  returncode = 0%Z ->
  files !! output_file_utr_of output_file u = Some "" ->
  let msg := "处理UTR " +:+ rec_id u +:+ " 时发生错误: " in
  process_utr E taxon output_file u w =
  ({| fs := fs (logged ("[ERROR] " +:+ msg +:+ NL +:+ format_exc E StopIteration) ran);
      trace := trace ran
               ++ [EWrite "EasyTargetScan_error.log" ("[ERROR] " +:+ msg +:+ NL);
                   EWrite "EasyTargetScan_error.log" (format_exc E StopIteration)] |},
   Ok tt).
Proof.
  intros Hrc Hempty msg. unfold process_utr, try_except, utr_job.
  destruct (Nat.ltb_spec (String.length (rec_seq u)) 20) as [?|_]; [lia|].
  cbv zeta. rewrite bind_open_write, !bind_print.
  erewrite bind_popen by exact predictor_ran.
  cbv beta iota. rewrite Hrc. cbn [Z.eqb negb].
  rewrite bind_path_exists. cbn [fs].
  fold (output_file_utr_of output_file u).
  rewrite bool_decide_eq_true_2 by (rewrite Hempty; eauto).
  cbn [negb]. unfold bind at 1. unfold read_text. cbn [fs].
  rewrite Hempty. unfold bind at 1. unfold feature_parser.
  cbn [file_lines]. unfold raise. cbn [any_exception].
  rewrite log_error_run. unfold ran, logged. same_world.
Qed.

End Started.

(** Whatever happens inside a job, the iteration itself returns. *)
Lemma process_utr_returns (u : SeqRecord) (w : World) :
  exists w', process_utr E taxon output_file u w = (w', Ok tt).
Proof.
  unfold process_utr, try_except.
  destruct (utr_job E taxon output_file u w) as [w1 [[]|e]]; [eauto|].
  cbn [any_exception]. rewrite log_error_run. eauto.
Qed.

Lemma utr_loop_result (us : list SeqRecord) (ending : option exn) :
  forall w, (for_each us ending (process_utr E taxon output_file) w).2
            = stream_end ending.
Proof.
  induction us as [|u us IH]; intros w.
  - destruct ending; reflexivity.
  - destruct (process_utr_returns u w) as [w' Hw'].
    rewrite (for_each_next _ _ _ _ _ _ Hw'). apply IH.
Qed.

End Orchestrator.

(** C3: a target record shorter than 20 characters is only reported on the
    console: no target table is written, the predictor is not started, no
    figure is saved and nothing goes to the error log; the loop goes on with
    the next record. *)
Theorem short_utr_skipped (E : Env) (taxon : Z) (output_file : string)
    (u : SeqRecord) (rest : list SeqRecord) (ending : option exn) (w : World) :
  String.length (rec_seq u) < 20 ->
  let skipped :=
    {| fs := fs w;
       trace := trace w ++ [EPrint ("跳过短UTR序列: " +:+ rec_id u +:+ " (长度="
                                    +:+ pretty (String.length (rec_seq u)) +:+ ")")] |} in
  process_utr E taxon output_file u w = (skipped, Ok tt) /\
  for_each (u :: rest) ending (process_utr E taxon output_file) w =
  for_each rest ending (process_utr E taxon output_file) skipped.
Proof.
  intros Hlen skipped.
  pose proof (short_job E taxon output_file u w Hlen) as Hjob.
  split; [exact Hjob|]. now apply for_each_next.
Qed.

Lemma short_utr_skipped_witness :
  let E := stub_env 0 "" [] in
  let u := {| rec_id := "short|utr"; rec_seq := "ACGUACGUACGUACGUACG" |} in
  let skipped :=
    {| fs := fs empty_world;
       trace := trace empty_world
                ++ [EPrint ("跳过短UTR序列: " +:+ rec_id u +:+ " (长度="
                            +:+ pretty (String.length (rec_seq u)) +:+ ")")] |} in
  process_utr E 10090 "out" u empty_world = (skipped, Ok tt) /\
  for_each (u :: []) None (process_utr E 10090 "out") empty_world =
  for_each [] None (process_utr E 10090 "out") skipped.
Proof.
  apply (short_utr_skipped (stub_env 0 "" []) 10090 "out"
           {| rec_id := "short|utr"; rec_seq := "ACGUACGUACGUACGUACG" |}
           [] None empty_world).
  vm_compute. lia.
Defined.

(** C4, as the script behaves: when the predictor exits with a non-zero
    status the job stops after printing the status and the captured output;
    when it exits with zero but the output file is missing the job stops
    after printing a line naming the missing file.  In both cases nothing is
    parsed, no figure is saved, nothing is raised, and the loop goes on with
    the next record. *)
Theorem predictor_failure_skips_job (E : Env) (taxon : Z) (output_file : string)
    (u : SeqRecord) (rest : list SeqRecord) (ending : option exn) (w : World)
    (returncode : Z) (stdout : string) (files : gmap string string) :
  20 <= String.length (rec_seq u) ->
  run_cmd E (predictor_cmd output_file u) (fs (job_started taxon output_file u w))
  = (returncode, stdout, files) ->
  returncode <> 0%Z \/ files !! output_file_utr_of output_file u = None ->
  let report :=
    if negb (returncode =? 0)%Z
    then [EPrint ("错误: Perl执行失败 (返回码=" +:+ pretty returncode +:+ ")");
          EPrint "错误日志:";
          EPrint stdout]
    else [EPrint ("严重错误: 未生成输出文件 " +:+ output_file_utr_of output_file u)] in
  let aborted :=
    {| fs := files;
       trace := trace (job_started taxon output_file u w)
                ++ EExec (predictor_cmd output_file u) :: report |} in
  process_utr E taxon output_file u w = (aborted, Ok tt) /\
  for_each (u :: rest) ending (process_utr E taxon output_file) w =
  for_each rest ending (process_utr E taxon output_file) aborted.
Proof.
  intros Hlen Hrun Hfail report aborted.
  assert (process_utr E taxon output_file u w = (aborted, Ok tt)) as Hjob.
  { unfold aborted, report. destruct (Z.eqb_spec returncode 0) as [H0|Hnz].
    - destruct Hfail as [?|Hnone]; [congruence|].
      rewrite (job_missing_output E taxon output_file u w _ _ _ Hlen Hrun H0 Hnone).
      cbn [negb trace]. rewrite <- app_assoc. reflexivity.
    - rewrite (job_nonzero_exit E taxon output_file u w _ _ _ Hlen Hrun Hnz).
      cbn [negb trace]. rewrite <- app_assoc. reflexivity. }
  split; [exact Hjob|]. now apply for_each_next.
Qed.

Lemma predictor_failure_skips_job_witness :
  let E := stub_env 2 "Can't open perl script" [] in
  let u := {| rec_id := "utr|1"; rec_seq := "ACGUACGUACGUACGUACGUACGUA" |} in
  let report :=
    if negb (2 =? 0)%Z
    then [EPrint ("错误: Perl执行失败 (返回码=" +:+ pretty 2%Z +:+ ")");
          EPrint "错误日志:";
          EPrint "Can't open perl script"]
    else [EPrint ("严重错误: 未生成输出文件 " +:+ output_file_utr_of "out" u)] in
  let aborted :=
    {| fs := fs (job_started 10090 "out" u empty_world);
       trace := trace (job_started 10090 "out" u empty_world)
                ++ EExec (predictor_cmd "out" u) :: report |} in
  process_utr E 10090 "out" u empty_world = (aborted, Ok tt) /\
  for_each (u :: []) None (process_utr E 10090 "out") empty_world =
  for_each [] None (process_utr E 10090 "out") aborted.
Proof.
  apply (predictor_failure_skips_job (stub_env 2 "Can't open perl script" [])
           10090 "out"
           {| rec_id := "utr|1"; rec_seq := "ACGUACGUACGUACGUACGUACGUA" |}
           [] None empty_world 2 "Can't open perl script").
  - vm_compute. lia.
  - reflexivity.
  - left. discriminate.
Defined.

(** C4, as stated, fails: the predictor exits with zero, prints a diagnostic
    and writes no output file; the job is skipped, but the captured output
    is neither printed nor written to the error log. *)
Lemma missing_output_not_logged :
  let E := stub_env 0 "Died at targetscan_70.pl line 1" [] in
  let u := {| rec_id := "utr|1"; rec_seq := "ACGUACGUACGUACGUACGUACGUA" |} in
  let '(w', r) := process_utr E 10090 "out" u empty_world in
  run_cmd E (predictor_cmd "out" u) (fs (job_started 10090 "out" u empty_world))
  = (0%Z, "Died at targetscan_70.pl line 1", fs (job_started 10090 "out" u empty_world)) /\
  fs w' !! output_file_utr_of "out" u = None /\
  r = Ok tt /\
  fs w' !! "EasyTargetScan_error.log" = None /\
  ~ In (EPrint "Died at targetscan_70.pl line 1") (trace w').
Proof.
  vm_compute. repeat split.
  intros H. repeat (destruct H as [H|H]; [discriminate H|]). exact H.
Qed.

(** C10: when the predictor exits with zero and leaves an empty output file,
    skipping the header raises [StopIteration]; the handler of the job
    catches it and appends the failure to the error log, no figure is saved,
    and the loop goes on with the next record. *)
Theorem empty_output_fails_job (E : Env) (taxon : Z) (output_file : string)
    (u : SeqRecord) (rest : list SeqRecord) (ending : option exn) (w : World)
    (stdout : string) (files : gmap string string) :
  20 <= String.length (rec_seq u) ->
  run_cmd E (predictor_cmd output_file u) (fs (job_started taxon output_file u w))
  = (0%Z, stdout, files) ->
  files !! output_file_utr_of output_file u = Some "" ->
  let msg := "处理UTR " +:+ rec_id u +:+ " 时发生错误: " in
  let failed :=
    {| fs := <["EasyTargetScan_error.log" :=
                 default "" (files !! "EasyTargetScan_error.log")
                 +:+ "[ERROR] " +:+ msg +:+ NL +:+ format_exc E StopIteration]> files;
       trace := trace (job_started taxon output_file u w)
                ++ [EExec (predictor_cmd output_file u);
                    EWrite "EasyTargetScan_error.log" ("[ERROR] " +:+ msg +:+ NL);
                    EWrite "EasyTargetScan_error.log" (format_exc E StopIteration)] |} in
  (forall w0, feature_parser E "" w0 = (w0, Raise StopIteration)) /\
  process_utr E taxon output_file u w = (failed, Ok tt) /\
  for_each (u :: rest) ending (process_utr E taxon output_file) w =
  for_each rest ending (process_utr E taxon output_file) failed.
Proof.
  intros Hlen Hrun Hempty msg failed.
  assert (process_utr E taxon output_file u w = (failed, Ok tt)) as Hjob.
  { rewrite (job_empty_output E taxon output_file u w _ _ _ Hlen Hrun eq_refl Hempty).
    unfold failed, logged. cbn [fs trace]. rewrite <- app_assoc. reflexivity. }
  split; [reflexivity|]. split; [exact Hjob|]. now apply for_each_next.
Qed.

Lemma empty_output_fails_job_witness :
  let E := stub_env 0 "" [("utr_1_out", "")] in
  let u := {| rec_id := "utr|1"; rec_seq := "ACGUACGUACGUACGUACGUACGUA" |} in
  let files := <["utr_1_out" := ""]> (fs (job_started 10090 "out" u empty_world)) in
  let msg := "处理UTR " +:+ rec_id u +:+ " 时发生错误: " in
  let failed :=
    {| fs := <["EasyTargetScan_error.log" :=
                 default "" (files !! "EasyTargetScan_error.log")
                 +:+ "[ERROR] " +:+ msg +:+ NL +:+ format_exc E StopIteration]> files;
       trace := trace (job_started 10090 "out" u empty_world)
                ++ [EExec (predictor_cmd "out" u);
                    EWrite "EasyTargetScan_error.log" ("[ERROR] " +:+ msg +:+ NL);
                    EWrite "EasyTargetScan_error.log" (format_exc E StopIteration)] |} in
  (forall w0, feature_parser E "" w0 = (w0, Raise StopIteration)) /\
  process_utr E 10090 "out" u empty_world = (failed, Ok tt) /\
  for_each (u :: []) None (process_utr E 10090 "out") empty_world =
  for_each [] None (process_utr E 10090 "out") failed.
Proof.
  apply (empty_output_fails_job (stub_env 0 "" [("utr_1_out", "")]) 10090 "out"
           {| rec_id := "utr|1"; rec_seq := "ACGUACGUACGUACGUACGUACGUA" |}
           [] None empty_world "").
  - vm_compute. lia.
  - reflexivity.
  - reflexivity.
Defined.

(** *** BatchOrchestrator: the [finally] block *)

Section Cleanup.

Variable E : Env.

Local Arguments String.append : simpl never.

Lemma cleanup_round (f : string) (rest : list string) (w : World) :
  cleanup_files E (f :: rest) w = cleanup_files E rest (after_remove E f w).
Proof.
  cbn [cleanup_files]. unfold bind at 1. unfold path_exists, after_remove.
  destruct (fs w !! f) as [content|] eqn:Hf.
  - rewrite bool_decide_eq_true_2 by eauto.
    unfold bind, try_except, remove.
    destruct (os_remove E f (fs w)) as [e|]; reflexivity.
  - rewrite bool_decide_eq_false_2 by (intros [? ?]; discriminate).
    reflexivity.
Qed.

(** The block never raises, whatever [os.remove] does. *)
Lemma cleanup_run (w : World) :
  cleanup E w =
  (after_remove E "UTRs_temp.txt" (after_remove E "miR_seeds_temp.txt" w), Ok tt).
Proof. unfold cleanup, temp_files. rewrite !cleanup_round. reflexivity. Qed.

Lemma after_remove_trace (f : string) (w : World) (ev : Event) :
  In ev (trace w) -> In ev (trace (after_remove E f w)).
Proof.
  intros H. unfold after_remove, emit.
  destruct (fs w !! f); [|exact H].
  destruct (os_remove E f (fs w)); cbn [trace]; rewrite ?in_app_iff; tauto.
Qed.

Lemma after_remove_attempted (f : string) (w : World) :
  is_Some (fs w !! f) -> In (ERemove f) (trace (after_remove E f w)).
Proof.
  intros [content Hf]. unfold after_remove, emit. rewrite Hf.
  destruct (os_remove E f (fs w)); cbn [trace fs]; rewrite ?in_app_iff;
    cbn [In]; tauto.
Qed.

Lemma after_remove_absent (f : string) (w : World) :
  fs (after_remove E f w) !! f = None \/
  exists e, os_remove E f (fs w) = Some e /\
            In (removal_report E f e) (trace (after_remove E f w)).
Proof.
  unfold after_remove, emit. destruct (fs w !! f) eqn:Hf; [|now left].
  destruct (os_remove E f (fs w)) as [e|].
  - right. exists e. split; [reflexivity|].
    cbn [trace]. rewrite in_app_iff. cbn [In]. tauto.
  - left. apply lookup_delete_eq.
Qed.

Lemma after_remove_keeps_absent (f g : string) (w : World) :
  fs w !! g = None -> fs (after_remove E f w) !! g = None.
Proof.
  intros Hg. unfold after_remove, emit. destruct (fs w !! f); [|exact Hg].
  destruct (os_remove E f (fs w)); cbn [fs]; [exact Hg|].
  rewrite lookup_delete. case_decide; [reflexivity | exact Hg].
Qed.

Lemma after_remove_other (f g : string) (w : World) :
  f <> g -> fs (after_remove E f w) !! g = fs w !! g.
Proof.
  intros Hne. unfold after_remove, emit. destruct (fs w !! f); [|reflexivity].
  destruct (os_remove E f (fs w)); cbn [fs]; [reflexivity|].
  now apply lookup_delete_ne.
Qed.

Lemma main_run (args : Args) (w : World) :
  main E args w =
  (after_remove E "UTRs_temp.txt"
     (after_remove E "miR_seeds_temp.txt" (main_body E args w).1),
   (main_body E args w).2).
Proof.
  unfold main, try_finally. destruct (main_body E args w) as [w1 r].
  rewrite cleanup_run. reflexivity.
Qed.

Lemma main_body_result (args : Args) (w : World) :
  (main_body E args w).2 = main_result args.
Proof.
  unfold main_body, main_result, bind. rewrite seed_extractor_run.
  destruct (failure (mir args)) as [e|]; cbn [stream_end]; [reflexivity|].
  apply utr_loop_result.
Qed.

End Cleanup.

(** C5: [main] ends as its body ends, normally or with the exception of a
    reader that failed; in every case the [finally] block has run on the
    world the body left.  For each of the two temp files: if it existed,
    [os.remove] was called on it; afterwards it is absent, or [os.remove]
    failed and the failure was printed, not raised; and when [os.remove]
    does not fail the file is absent. *)
Theorem temp_files_cleaned (E : Env) (args : Args) (w : World) :
  let w_body := (main_body E args w).1 in
  let w_end := (main E args w).1 in
  (main E args w).2 = main_result args /\
  (main_body E args w).2 = main_result args /\
  forall f : string, In f temp_files ->
    (is_Some (fs w_body !! f) -> In (ERemove f) (trace w_end)) /\
    (fs w_end !! f = None \/
     exists e files, os_remove E f files = Some e /\
                     In (removal_report E f e) (trace w_end)) /\
    ((forall files, os_remove E f files = None) -> fs w_end !! f = None).
Proof.
  intros w_body w_end. unfold w_end. rewrite main_run. cbn [fst snd].
  fold w_body. split; [apply main_body_result|]. split; [apply main_body_result|].
  assert (forall f, In f temp_files ->
    (is_Some (fs w_body !! f) ->
     In (ERemove f) (trace (after_remove E "UTRs_temp.txt"
                              (after_remove E "miR_seeds_temp.txt" w_body)))) /\
    (fs (after_remove E "UTRs_temp.txt"
           (after_remove E "miR_seeds_temp.txt" w_body)) !! f = None \/
     exists e files, os_remove E f files = Some e /\
       In (removal_report E f e)
          (trace (after_remove E "UTRs_temp.txt"
                    (after_remove E "miR_seeds_temp.txt" w_body))))) as Hmain.
  { intros f [<- | [<- | []]].
    - split.
      + intros Hsome. apply after_remove_trace, after_remove_attempted, Hsome.
      + destruct (after_remove_absent E "miR_seeds_temp.txt" w_body)
          as [Hnone | (e & He & Hin)].
        * left. apply after_remove_keeps_absent, Hnone.
        * right. exists e, (fs w_body). split; [exact He|].
          apply after_remove_trace, Hin.
    - split.
      + intros Hsome. apply after_remove_attempted.
        rewrite after_remove_other by discriminate. exact Hsome.
      + destruct (after_remove_absent E "UTRs_temp.txt"
                    (after_remove E "miR_seeds_temp.txt" w_body))
          as [Hnone | (e & He & Hin)]; [now left|].
        right. eauto. }
  intros f Hf. destruct (Hmain f Hf) as [Hatt Habs].
  split; [exact Hatt|]. split; [exact Habs|].
  intros Hok. destruct Habs as [Hnone | (e & files & He & _)]; [exact Hnone|].
  rewrite Hok in He. discriminate.
Qed.

Lemma temp_files_cleaned_witness :
  let E := stub_env 0 "" [] in
  let args :=
    {| utr := {| items := [{| rec_id := "utr|1"; rec_seq := "ACGUACGUACGUACGUACGUACGUA" |}];
                 failure := Some (OtherError "truncated FASTA file") |};
       mir := {| items := [{| rec_id := "mmu-let-7a"; rec_seq := "UGAGGUAGUAGGUUGUAUAGUU" |}];
                 failure := None |};
       output := "out"; Taxon := 10090 |} in
  (main E args empty_world).2 = Raise (OtherError "truncated FASTA file") /\
  is_Some (fs (main_body E args empty_world).1 !! "miR_seeds_temp.txt") /\
  is_Some (fs (main_body E args empty_world).1 !! "UTRs_temp.txt") /\
  fs (main E args empty_world).1 !! "miR_seeds_temp.txt" = None /\
  fs (main E args empty_world).1 !! "UTRs_temp.txt" = None.
Proof.
  intros E args.
  destruct (temp_files_cleaned E args empty_world) as (Hr & _ & Hfiles).
  split; [exact Hr|].
  split; [vm_compute; eauto|]. split; [vm_compute; eauto|].
  split.
  - apply (Hfiles "miR_seeds_temp.txt"); [left; reflexivity | reflexivity].
  - apply (Hfiles "UTRs_temp.txt"); [right; left; reflexivity | reflexivity].
Defined.

(** ** Further properties of the script *)

Lemma count_app (kind : Event -> bool) (a b : list Event) :
  count kind (a ++ b) = count kind a + count kind b.
Proof.
  induction a as [|ev a IH]; [reflexivity|].
  cbn [count app]. rewrite IH. lia.
Qed.

(** *** The seed table *)

(** X1: whatever the seed table held before, after SeedExtractor it holds
    exactly the rows of the records read, in order (the empty table for an
    empty stream, the rows read so far when the reader fails); no other file
    changes and nothing is printed. *)
Theorem seed_table_content (taxon : Z) (mirna : Stream) (w : World) :
  let w' := (seed_extractor taxon mirna w).1 in
  fs w' !! "miR_seeds_temp.txt" = Some (seed_rows taxon (items mirna)) /\
  (forall g, g <> "miR_seeds_temp.txt" -> fs w' !! g = fs w !! g) /\
  count is_print (trace w') = count is_print (trace w) /\
  (seed_extractor taxon mirna w).2 = stream_end (failure mirna).
Proof.
  rewrite seed_extractor_run. cbn [fst snd fs trace].
  split; [apply lookup_insert_eq|].
  split; [intros g Hg; now apply lookup_insert_ne|].
  split; [|reflexivity].
  assert (forall recs, count is_print (seed_writes taxon recs) = 0) as Hnone.
  { induction recs as [|r recs IH]; [reflexivity|]. exact IH. }
  rewrite count_app. cbn [count is_print]. rewrite Hnone. lia.
Qed.

Lemma seed_table_content_witness :
  let w := {| fs := {[ "miR_seeds_temp.txt" := "stale" ]}; trace := [] |} in
  fs (seed_extractor 10090 {| items := []; failure := None |} w).1
    !! "miR_seeds_temp.txt" = Some "" /\
  fs (seed_extractor 10090 {| items := []; failure := None |} w).1
    !! "utr_1_out.png" = None.
Proof.
  intros w.
  destruct (seed_table_content 10090 {| items := []; failure := None |} w)
    as (Htable & Hframe & _).
  split; [exact Htable|].
  rewrite (Hframe "utr_1_out.png") by discriminate. reflexivity.
Defined.

Lemma substring_length_min (s : string) (n m : nat) :
  String.length (substring n m s) = Nat.min m (String.length s - n).
Proof.
  revert n m. induction s as [|c s IH]; intros n m.
  - destruct n, m; reflexivity.
  - destruct n as [|n].
    + destruct m as [|m]; [reflexivity|].
      cbn [substring String.length]. rewrite IH. cbn. rewrite Nat.sub_0_r.
      reflexivity.
    + cbn [substring String.length]. rewrite IH. reflexivity.
Qed.

Lemma mir_seed_length_any (miR : SeqRecord) :
  String.length (mir_seed miR) = Nat.min seed_size (String.length (rec_seq miR) - 1).
Proof. unfold mir_seed, py_slice. apply substring_length_min. Qed.

(** X2: no miRNA record is skipped, whatever the length of its sequence: the
    step of the loop writes its row [id TAB seed TAB taxon NL] to the seed
    table, prints no warning and returns.  The seed has
    [min seed_size (len - 1)] characters, those of the sequence from index 1
    on, so a record shorter than [seed_size + 1] gets a shorter seed, empty
    for a sequence of at most one character. *)
Theorem every_mirna_gets_a_row (taxon : Z) (miR : SeqRecord) (w : World) :
  exists seed : string,
    String.length seed = Nat.min seed_size (String.length (rec_seq miR) - 1) /\
    (forall k, k < String.length seed -> get k seed = get (S k) (rec_seq miR)) /\
    let row := rec_id miR +:+ TAB +:+ seed +:+ TAB +:+ pretty taxon +:+ NL in
    seed_step taxon miR w =
    ({| fs := <["miR_seeds_temp.txt" :=
                  default "" (fs w !! "miR_seeds_temp.txt") +:+ row]> (fs w);
        trace := trace w ++ [EWrite "miR_seeds_temp.txt" row] |}, Ok tt).
Proof.
  exists (mir_seed miR). split; [apply mir_seed_length_any|]. split.
  - intros k Hk. rewrite mir_seed_length_any in Hk. apply mir_seed_get.
    unfold seed_size in *. lia.
  - reflexivity.
Qed.

Lemma every_mirna_gets_a_row_witness :
  let short := {| rec_id := "miR-short"; rec_seq := "UGAG" |} in
  exists seed : string,
    String.length seed = 3 /\
    seed_step 10090 short empty_world =
    ({| fs := {[ "miR_seeds_temp.txt" :=
                   "miR-short" +:+ TAB +:+ seed +:+ TAB +:+ "10090" +:+ NL ]};
        trace := [EWrite "miR_seeds_temp.txt"
                    ("miR-short" +:+ TAB +:+ seed +:+ TAB +:+ "10090" +:+ NL)] |},
     Ok tt).
Proof.
  intros short.
  destruct (every_mirna_gets_a_row 10090 short empty_world)
    as (seed & Hlen & _ & Hstep).
  exists seed. split; [exact Hlen | exact Hstep].
Defined.

(** *** The error log *)

(** X3: [log_error] never raises and only appends: the log keeps what it held
    and gains the [[ERROR]] line and the traceback text; every other file is
    unchanged and nothing is printed. *)
Theorem log_error_appends (E : Env) (msg : string) (e : exn) (w : World) :
  let w' := (log_error E msg e w).1 in
  (log_error E msg e w).2 = Ok tt /\
  fs w' !! "EasyTargetScan_error.log" =
    Some (default "" (fs w !! "EasyTargetScan_error.log")
          +:+ "[ERROR] " +:+ msg +:+ NL +:+ format_exc E e) /\
  (forall g, g <> "EasyTargetScan_error.log" -> fs w' !! g = fs w !! g) /\
  count is_print (trace w') = count is_print (trace w).
Proof.
  rewrite log_error_run. cbn [fst snd fs trace logged].
  split; [reflexivity|]. split; [apply lookup_insert_eq|].
  split; [intros g Hg; now apply lookup_insert_ne|].
  rewrite count_app. cbn [count is_print]. lia.
Qed.

Lemma log_error_appends_witness :
  fs (log_error (stub_env 0 "" []) "second" StopIteration
        {| fs := {[ "EasyTargetScan_error.log" := "first" ]}; trace := [] |}).1
    !! "other.txt" = None.
Proof.
  rewrite (proj1 (proj2 (proj2 (log_error_appends (stub_env 0 "" []) "second"
             StopIteration
             {| fs := {[ "EasyTargetScan_error.log" := "first" ]}; trace := [] |})))
             "other.txt") by discriminate.
  reflexivity.
Defined.

(** *** One job, from the predictor's table to the figure *)

Section Jobs.

Variable E : Env.
Variable taxon : Z.
Variable output_file : string.

Local Arguments String.append : simpl never.

Ltac same_trace :=
  unfold job_started, emit; cbn [fs trace]; rewrite <- ?app_assoc; reflexivity.

Lemma file_lines_nil (text : string) : file_lines text = [] -> text = "".
Proof.
  destruct text as [|c text]; [reflexivity|]. cbn [file_lines].
  destruct (Ascii.eqb c "010"); [discriminate|].
  destruct (file_lines text); discriminate.
Qed.

Lemma diagnostics_only_print (lines : list string) (kind : Event -> bool) :
  (forall text, kind (EPrint text) = false) ->
  count kind (diagnostics E lines) = 0.
Proof.
  intros Hkind. induction lines as [|line lines IH]; [reflexivity|].
  cbn [diagnostics]. destruct (parse_row line); [exact IH|].
  cbn [count]. unfold row_diagnostic. rewrite Hkind, IH. reflexivity.
Qed.

Section Parsed.

Variable u : SeqRecord.
Variable w : World.
Variable stdout : string.
Variable files : gmap string string.
Variable text header : string.
Variable rows : list string.

Hypothesis long_record : 20 <= String.length (rec_seq u).
Hypothesis predictor_ok :
  run_cmd E (predictor_cmd output_file u) (fs (job_started taxon output_file u w))
  = (0%Z, stdout, files).
Hypothesis table_present : files !! output_file_utr_of output_file u = Some text.
Hypothesis table_lines : file_lines text = header :: rows.

Let png : string := output_file_utr_of output_file u +:+ ".png".
Let fig : Figure := job_figure u (features_of rows).
Let parsed : World :=
  {| fs := files;
     trace := trace (job_started taxon output_file u w)
              ++ [EExec (predictor_cmd output_file u)] ++ diagnostics E rows |}.

(** The job up to the call of the plotting library. *)
Lemma job_reaches_plot :
  process_utr E taxon output_file u w =
  try_except any_exception (savefig E png fig)
    (fun e => log_error E ("处理UTR " +:+ rec_id u +:+ " 时发生错误: "
                           +:+ str_exn E e) e)
    parsed.
Proof.
  unfold process_utr, utr_job.
  destruct (Nat.ltb_spec (String.length (rec_seq u)) 20) as [?|_]; [lia|].
  cbv zeta. unfold try_except.
  rewrite bind_open_write, !bind_print.
  erewrite bind_popen by exact predictor_ok.
  cbv beta iota. cbn [Z.eqb negb].
  rewrite bind_path_exists. cbn [fs].
  fold (output_file_utr_of output_file u).
  rewrite bool_decide_eq_true_2 by (rewrite table_present; eauto).
  cbn [negb]. unfold bind at 1. unfold read_text. cbn [fs].
  rewrite table_present. unfold bind at 1. unfold feature_parser.
  rewrite table_lines, parse_lines_run. cbv beta iota. cbn [app fs trace].
  unfold parsed, png, fig, job_figure, job_started, emit. cbn [fs trace].
  rewrite <- !app_assoc. reflexivity.
Qed.

Lemma job_saves_figure (bytes : string) :
  render E png fig = Ok bytes ->
  process_utr E taxon output_file u w =
  ({| fs := <[png := bytes]> files;
      trace := trace parsed ++ [ESavefig png fig] |}, Ok tt).
Proof.
  intros Hr. rewrite job_reaches_plot. unfold try_except, savefig.
  rewrite Hr. reflexivity.
Qed.

Lemma job_plot_fails (e : exn) :
  render E png fig = Raise e ->
  let msg := "处理UTR " +:+ rec_id u +:+ " 时发生错误: " +:+ str_exn E e in
  process_utr E taxon output_file u w =
  ({| fs := fs (logged ("[ERROR] " +:+ msg +:+ NL +:+ format_exc E e) parsed);
      trace := trace parsed
               ++ [EWrite "EasyTargetScan_error.log" ("[ERROR] " +:+ msg +:+ NL);
                   EWrite "EasyTargetScan_error.log" (format_exc E e)] |}, Ok tt).
Proof.
  intros Hr msg. rewrite job_reaches_plot. unfold try_except, savefig.
  rewrite Hr. cbn [any_exception]. apply log_error_run.
Qed.

End Parsed.

End Jobs.

(** *** The loop over the targets *)

Section Batch.

Variable E : Env.
Variable taxon : Z.
Variable output_file : string.

Local Arguments String.append : simpl never.

Lemma diagnostics_are_prints (lines : list string) (ev : Event) :
  In ev (diagnostics E lines) -> exists text, ev = EPrint text.
Proof.
  induction lines as [|line lines IH]; [intros []|].
  cbn [diagnostics]. destruct (parse_row line); [exact IH|].
  intros [<- | Hin]; [unfold row_diagnostic; eauto | auto].
Qed.

(** Every way a job on a long enough record can end: the predictor is run
    once, then come console lines, writes to the error log and at most one
    figure, saved under the image name of the record; of the files the
    predictor left, only the error log and that image can differ. *)
Lemma long_job_shape (u : SeqRecord) (w : World) (returncode : Z)
    (stdout : string) (files : gmap string string) :
  20 <= String.length (rec_seq u) ->
  run_cmd E (predictor_cmd output_file u) (fs (job_started taxon output_file u w))
  = (returncode, stdout, files) ->
  exists (tail : list Event) (files' : gmap string string),
    process_utr E taxon output_file u w =
    ({| fs := files';
        trace := trace (job_started taxon output_file u w)
                 ++ EExec (predictor_cmd output_file u) :: tail |}, Ok tt) /\
    count is_exec tail = 0 /\
    count is_savefig tail <= 1 /\
    (forall g, g <> "EasyTargetScan_error.log" ->
               g <> output_file_utr_of output_file u +:+ ".png" ->
               files' !! g = files !! g) /\
    (forall path fig, In (ESavefig path fig) tail ->
                      path = output_file_utr_of output_file u +:+ ".png").
Proof.
  intros Hlen Hrun.
  destruct (Z.eqb_spec returncode 0) as [H0|Hnz].
  - subst returncode.
    destruct (files !! output_file_utr_of output_file u) as [text|] eqn:Hout.
    + destruct (file_lines text) as [|header rows] eqn:Hlines.
      * apply file_lines_nil in Hlines. subst text.
        rewrite (job_empty_output E taxon output_file u w _ _ _ Hlen Hrun eq_refl Hout).
        eexists _, _. split.
        { cbn [trace]. rewrite <- app_assoc. reflexivity. }
        split; [reflexivity|]. split; [cbn; lia|]. split.
        { intros g Hg _. cbn [fs logged]. now apply lookup_insert_ne. }
        intros path fig [H|[H|[]]]; discriminate H.
      * destruct (render E (output_file_utr_of output_file u +:+ ".png")
                    (job_figure u (features_of rows))) as [bytes|e] eqn:Hr.
        -- rewrite (job_saves_figure E taxon output_file u w _ _ _ _ _
                      Hlen Hrun Hout Hlines bytes Hr).
           eexists _, _. split.
           { cbn [trace]. rewrite <- !app_assoc. reflexivity. }
           split; [|split; [|split]].
           ++ rewrite count_app, diagnostics_only_print by reflexivity. reflexivity.
           ++ rewrite count_app, diagnostics_only_print by reflexivity. cbn. lia.
           ++ intros g _ Hg. now apply lookup_insert_ne.
           ++ intros path fig [Hin | [[= <- _] | []]]%in_app_or; [|reflexivity].
              apply diagnostics_are_prints in Hin as [printed Hp]. discriminate Hp.
        -- rewrite (job_plot_fails E taxon output_file u w _ _ _ _ _
                      Hlen Hrun Hout Hlines e Hr).
           eexists _, _. split.
           { cbn [trace]. rewrite <- !app_assoc. reflexivity. }
           split; [|split; [|split]].
           ++ rewrite count_app, diagnostics_only_print by reflexivity. reflexivity.
           ++ rewrite count_app, diagnostics_only_print by reflexivity. cbn. lia.
           ++ intros g Hg _. cbn [fs logged]. now apply lookup_insert_ne.
           ++ intros path fig [Hin | [H|[H|[]]]]%in_app_or; try discriminate H.
              apply diagnostics_are_prints in Hin as [printed Hp]. discriminate Hp.
    + rewrite (job_missing_output E taxon output_file u w _ _ _ Hlen Hrun eq_refl Hout).
      eexists _, _. split.
      { cbn [trace]. rewrite <- app_assoc. reflexivity. }
      split; [reflexivity|]. split; [cbn; lia|]. split; [reflexivity|].
      intros path fig [H|[]]; discriminate H.
  - rewrite (job_nonzero_exit E taxon output_file u w _ _ _ Hlen Hrun Hnz).
    eexists _, _. split.
    { cbn [trace]. rewrite <- app_assoc. reflexivity. }
    split; [reflexivity|]. split; [cbn; lia|]. split; [reflexivity|].
    intros path fig [H|[H|[H|[]]]]; discriminate H.
Qed.

Lemma job_started_counts (kind : Event -> bool) (u : SeqRecord) (w : World) :
  (forall text, kind (EPrint text) = false) ->
  (forall path, kind (ETruncate path) = false) ->
  (forall path data, kind (EWrite path data) = false) ->
  count kind (trace (job_started taxon output_file u w)) = count kind (trace w).
Proof.
  intros Hp Ht Hw. unfold job_started, emit. cbn [trace].
  rewrite !count_app. cbn [count]. rewrite !Hp, Ht, Hw. lia.
Qed.

(** One iteration: one predictor run when the record is long enough, none
    otherwise; at most one figure. *)
Lemma job_counts (u : SeqRecord) (w : World) :
  let w' := (process_utr E taxon output_file u w).1 in
  count is_exec (trace w') =
    count is_exec (trace w) + (if long_enough u then 1 else 0) /\
  count is_savefig (trace w') <=
    count is_savefig (trace w) + (if long_enough u then 1 else 0).
Proof.
  unfold long_enough.
  destruct (Nat.ltb_spec (String.length (rec_seq u)) 20) as [Hshort|Hlong].
  - rewrite (short_job E taxon output_file u w Hshort). unfold emit.
    cbn [fst trace negb]. rewrite !count_app. cbn. lia.
  - destruct (run_cmd E (predictor_cmd output_file u)
                (fs (job_started taxon output_file u w)))
      as [[returncode stdout] files] eqn:Hrun.
    destruct (long_job_shape u w _ _ _ Hlong Hrun)
      as (tail & files' & -> & Hexec & Hfig & _).
    cbn [fst trace negb]. rewrite !count_app. cbn [count is_exec is_savefig].
    rewrite !job_started_counts by reflexivity. lia.
Qed.

Lemma utr_loop_counts (us : list SeqRecord) (ending : option exn) :
  forall w,
    let w' := (for_each us ending (process_utr E taxon output_file) w).1 in
    count is_exec (trace w') =
      count is_exec (trace w) + length (List.filter long_enough us) /\
    count is_savefig (trace w') <=
      count is_savefig (trace w) + length (List.filter long_enough us).
Proof.
  induction us as [|u us IH]; intros w.
  - cbn [for_each List.filter length]. destruct ending; cbn; lia.
  - destruct (process_utr_returns E taxon output_file u w) as [w1 Hw1].
    pose proof (job_counts u w) as Hjob. rewrite Hw1 in Hjob. cbn [fst] in Hjob.
    cbv zeta. rewrite (for_each_next _ _ _ _ _ _ Hw1).
    specialize (IH w1). cbv zeta in IH.
    cbn [List.filter]. destruct (long_enough u); cbn [length]; lia.
Qed.

End Batch.

(** *** Jobs that reach the plotting library *)

(** X4: when the predictor exits with 0 and its table has a first line, that
    line is dropped, the other lines are parsed, and if plotting succeeds the
    job saves exactly one figure under [<clean id>_<prefix>.png]: it has the
    length of the sequence, the features of the rows that parse, in file
    order (none for a table that is only a header), the title
    [<id> sequence] and the fixed legend.  The error log is not touched. *)
Theorem target_figure_saved (E : Env) (taxon : Z) (output_file : string)
    (u : SeqRecord) (w : World) (stdout : string) (files : gmap string string)
    (text header : string) (rows : list string) (bytes : string) :
  20 <= String.length (rec_seq u) ->
  run_cmd E (predictor_cmd output_file u) (fs (job_started taxon output_file u w))
  = (0%Z, stdout, files) ->
  files !! output_file_utr_of output_file u = Some text ->
  file_lines text = header :: rows ->
  let png := output_file_utr_of output_file u +:+ ".png" in
  let fig := {| sequence_length := String.length (rec_seq u);
                features := features_of rows;
                figure_width := 12;
                title := rec_id u +:+ " sequence";
                legend_handles := [("#00ff99", "6mer"); ("#9999ff", "7mer-1a");
                                   ("#ff66cc", "7mer-m8"); ("#ff0000", "8mer-1a")];
                dpi := 300 |} in
  render E png fig = Ok bytes ->
  process_utr E taxon output_file u w =
  ({| fs := <[png := bytes]> files;
      trace := trace (job_started taxon output_file u w)
               ++ [EExec (predictor_cmd output_file u)]
               ++ diagnostics E rows ++ [ESavefig png fig] |}, Ok tt).
Proof.
  intros Hlen Hrun Hout Hlines png fig Hr.
  rewrite (job_saves_figure E taxon output_file u w _ _ _ _ _
             Hlen Hrun Hout Hlines bytes Hr).
  cbn [trace]. rewrite <- !app_assoc. reflexivity.
Qed.

Lemma target_figure_saved_witness :
  exists fig,
    process_utr (table_env "out" demo_utr demo_table) 10090 "out" demo_utr empty_world =
    ({| fs := <["utr_1_out.png" := "PNG"]>
                (<["utr_1_out" := demo_table]>
                   (fs (job_started 10090 "out" demo_utr empty_world)));
        trace := trace (job_started 10090 "out" demo_utr empty_world)
                 ++ [EExec (predictor_cmd "out" demo_utr)]
                 ++ [] ++ [ESavefig "utr_1_out.png" fig] |}, Ok tt) /\
    features fig = [{| start := 10; end_ := 17; strand := 1;
                       color := "#ff66cc"; label := "miR-1" |}].
Proof.
  eexists. split.
  - apply (target_figure_saved (table_env "out" demo_utr demo_table) 10090 "out"
             demo_utr empty_world "" _ demo_table
             (tsv ["a_Gene_ID"; "miRNA_family_ID"; "species_ID"; "MSA_start";
                   "MSA_end"; "UTR_start"; "UTR_end"; "Group_num"; "Site_type"]
              +:+ NL)
             [tsv ["utr|1"; "mmu-miR-1"; "10090"; "10"; "17"; "10"; "17"; "1";
                   "7mer-m8"] +:+ NL]
             "PNG").
    + vm_compute. lia.
    + reflexivity.
    + reflexivity.
    + reflexivity.
    + reflexivity.
  - reflexivity.
Defined.

(** X5: when plotting or saving raises, the exception is caught at the job:
    its message and the traceback go to the error log, no figure is saved,
    the target's rows were still parsed (their diagnostics are printed), and
    the iteration returns so the loop goes on. *)
Theorem plot_failure_logged (E : Env) (taxon : Z) (output_file : string)
    (u : SeqRecord) (w : World) (stdout : string) (files : gmap string string)
    (text header : string) (rows : list string) (e : exn) :
  20 <= String.length (rec_seq u) ->
  run_cmd E (predictor_cmd output_file u) (fs (job_started taxon output_file u w))
  = (0%Z, stdout, files) ->
  files !! output_file_utr_of output_file u = Some text ->
  file_lines text = header :: rows ->
  render E (output_file_utr_of output_file u +:+ ".png")
    (job_figure u (features_of rows)) = Raise e ->
  let msg := "处理UTR " +:+ rec_id u +:+ " 时发生错误: " +:+ str_exn E e in
  process_utr E taxon output_file u w =
  ({| fs := <["EasyTargetScan_error.log" :=
                default "" (files !! "EasyTargetScan_error.log")
                +:+ "[ERROR] " +:+ msg +:+ NL +:+ format_exc E e]> files;
      trace := trace (job_started taxon output_file u w)
               ++ [EExec (predictor_cmd output_file u)]
               ++ diagnostics E rows
               ++ [EWrite "EasyTargetScan_error.log" ("[ERROR] " +:+ msg +:+ NL);
                   EWrite "EasyTargetScan_error.log" (format_exc E e)] |}, Ok tt).
Proof.
  intros Hlen Hrun Hout Hlines Hr msg.
  rewrite (job_plot_fails E taxon output_file u w _ _ _ _ _
             Hlen Hrun Hout Hlines e Hr).
  unfold logged. cbn [fs trace]. rewrite <- !app_assoc. reflexivity.
Qed.

(** X6: the target table is rewritten for every job: what it held before
    (the row of the previous target, or anything else) has no effect on the
    job of a record that is long enough. *)
Theorem target_table_overwritten (E : Env) (taxon : Z) (output_file : string)
    (u : SeqRecord) (w : World) (stale : string) :
  20 <= String.length (rec_seq u) ->
  process_utr E taxon output_file u
    {| fs := <["UTRs_temp.txt" := stale]> (fs w); trace := trace w |} =
  process_utr E taxon output_file u w.
Proof.
  intros Hlen. unfold process_utr, try_except, utr_job.
  destruct (Nat.ltb_spec (String.length (rec_seq u)) 20) as [?|_]; [lia|].
  cbv zeta. rewrite !bind_open_write. cbn [fs trace].
  rewrite insert_insert_eq. reflexivity.
Qed.

Lemma target_table_overwritten_witness :
  process_utr (table_env "out" demo_utr demo_table) 10090 "out" demo_utr
    {| fs := <["UTRs_temp.txt" := "stale row"]> (fs empty_world);
       trace := trace empty_world |} =
  process_utr (table_env "out" demo_utr demo_table) 10090 "out" demo_utr empty_world.
Proof.
  apply (target_table_overwritten (table_env "out" demo_utr demo_table) 10090 "out"
           demo_utr empty_world "stale row").
  vm_compute. lia.
Defined.

Lemma plot_failure_logged_witness :
  let E := broken_plot_env "out" demo_utr demo_table in
  let files := <["utr_1_out" := demo_table]>
                 (fs (job_started 10090 "out" demo_utr empty_world)) in
  let row := tsv ["utr|1"; "mmu-miR-1"; "10090"; "10"; "17"; "10"; "17"; "1";
                  "7mer-m8"] +:+ NL in
  let msg := "处理UTR " +:+ rec_id demo_utr +:+ " 时发生错误: "
             +:+ str_exn E (OtherError "cannot save figure") in
  process_utr E 10090 "out" demo_utr empty_world =
  ({| fs := <["EasyTargetScan_error.log" :=
                default "" (files !! "EasyTargetScan_error.log")
                +:+ "[ERROR] " +:+ msg +:+ NL
                +:+ format_exc E (OtherError "cannot save figure")]> files;
      trace := trace (job_started 10090 "out" demo_utr empty_world)
               ++ [EExec (predictor_cmd "out" demo_utr)]
               ++ diagnostics E [row]
               ++ [EWrite "EasyTargetScan_error.log" ("[ERROR] " +:+ msg +:+ NL);
                   EWrite "EasyTargetScan_error.log"
                     (format_exc E (OtherError "cannot save figure"))] |}, Ok tt).
Proof.
  intros E files row msg.
  apply (plot_failure_logged E 10090 "out" demo_utr empty_world "" files demo_table
           (tsv ["a_Gene_ID"; "miRNA_family_ID"; "species_ID"; "MSA_start";
                 "MSA_end"; "UTR_start"; "UTR_end"; "Group_num"; "Site_type"]
            +:+ NL)
           [row] (OtherError "cannot save figure")).
  - vm_compute. lia.
  - reflexivity.
  - reflexivity.
  - reflexivity.
  - reflexivity.
Defined.

(** *** The whole run *)

Lemma last_char_app (a b : string) :
  b <> "" -> last_char (a +:+ b) = last_char b.
Proof.
  intros Hb. induction a as [|c a IH]; [reflexivity|].
  change (String c a +:+ b) with (String c (a +:+ b)). cbn [last_char].
  rewrite IH. destruct (a +:+ b) eqn:Hab; [|reflexivity].
  destruct a; [exfalso; apply Hb; exact Hab | discriminate Hab].
Qed.

Lemma png_not_txt (name : string) :
  name +:+ ".png" <> "miR_seeds_temp.txt" /\ name +:+ ".png" <> "UTRs_temp.txt".
Proof.
  split; intros H; apply (f_equal last_char) in H;
    rewrite last_char_app in H by discriminate; discriminate.
Qed.

Section WholeRun.

Variable E : Env.

Local Arguments String.append : simpl never.

Lemma seed_writes_count (kind : Event -> bool) (taxon : Z) (recs : list SeqRecord) :
  (forall path data, kind (EWrite path data) = false) ->
  count kind (seed_writes taxon recs) = 0.
Proof.
  intros Hw. induction recs as [|r recs IH]; [reflexivity|].
  cbn [seed_writes map count]. rewrite Hw. exact IH.
Qed.

Lemma after_remove_counts (kind : Event -> bool) (f : string) (w : World) :
  (forall text, kind (EPrint text) = false) ->
  (forall path, kind (ERemove path) = false) ->
  count kind (trace (after_remove E f w)) = count kind (trace w).
Proof.
  intros Hp Hr. unfold after_remove, emit, removal_report.
  destruct (fs w !! f); [|reflexivity].
  destruct (os_remove E f (fs w)); cbn [trace];
    rewrite !count_app; cbn [count]; rewrite ?Hp, ?Hr; lia.
Qed.

Lemma main_body_counts (args : Args) (w : World) :
  let jobs := match failure (mir args) with
              | Some _ => 0
              | None => length (List.filter long_enough (items (utr args)))
              end in
  count is_exec (trace (main_body E args w).1) = count is_exec (trace w) + jobs /\
  count is_savefig (trace (main_body E args w).1) <= count is_savefig (trace w) + jobs.
Proof.
  unfold main_body, bind. rewrite seed_extractor_run.
  destruct (failure (mir args)) as [e|]; cbn [stream_end].
  - cbn [fst trace]. rewrite !count_app. cbn [count is_exec is_savefig].
    rewrite !seed_writes_count by reflexivity. lia.
  - match goal with
    | |- context [for_each ?us ?en ?body ?w1] =>
        pose proof (utr_loop_counts E (Taxon args) (output args) us en w1) as H
    end.
    cbv zeta in H. cbn [trace] in H. rewrite !count_app in H.
    cbn [count is_exec is_savefig] in H.
    rewrite !seed_writes_count in H by reflexivity. cbv zeta. lia.
Qed.

(** A predictor that leaves the seed table alone. *)
Hypothesis predictor_keeps_seeds :
  forall cmd files,
    (run_cmd E cmd files).2 !! "miR_seeds_temp.txt" = files !! "miR_seeds_temp.txt".

Lemma job_keeps_seeds (taxon : Z) (output_file : string) (u : SeqRecord) (w : World) :
  fs (process_utr E taxon output_file u w).1 !! "miR_seeds_temp.txt"
  = fs w !! "miR_seeds_temp.txt".
Proof.
  destruct (Nat.ltb_spec (String.length (rec_seq u)) 20) as [Hshort|Hlong].
  - rewrite (short_job E taxon output_file u w Hshort). reflexivity.
  - destruct (run_cmd E (predictor_cmd output_file u)
                (fs (job_started taxon output_file u w)))
      as [[returncode stdout] files] eqn:Hrun.
    destruct (long_job_shape E taxon output_file u w _ _ _ Hlong Hrun)
      as (tail & files' & -> & _ & _ & Hframe & _).
    cbn [fst fs]. rewrite Hframe by (discriminate || apply not_eq_sym, png_not_txt).
    pose proof (predictor_keeps_seeds (predictor_cmd output_file u)
                  (fs (job_started taxon output_file u w))) as Hkeep.
    rewrite Hrun in Hkeep. cbn [snd] in Hkeep. rewrite Hkeep.
    unfold job_started, emit. cbn [fs]. now apply lookup_insert_ne.
Qed.

Lemma loop_keeps_seeds (taxon : Z) (output_file : string) (us : list SeqRecord)
    (ending : option exn) :
  forall w,
    fs (for_each us ending (process_utr E taxon output_file) w).1
      !! "miR_seeds_temp.txt" = fs w !! "miR_seeds_temp.txt".
Proof.
  induction us as [|u us IH]; intros w.
  - destruct ending; reflexivity.
  - destruct (process_utr_returns E taxon output_file u w) as [w1 Hw1].
    rewrite (for_each_next _ _ _ _ _ _ Hw1), IH.
    pose proof (job_keeps_seeds taxon output_file u w) as Hjob.
    rewrite Hw1 in Hjob. exact Hjob.
Qed.

End WholeRun.

(** Over a whole run, as many starts of the predictor as there are target
    records of at least 20 characters, and at most as many figures. *)
Lemma predictor_runs_counted (E : Env) (args : Args) (w : World) :
  let jobs := match failure (mir args) with
              | Some _ => 0
              | None => length (List.filter long_enough (items (utr args)))
              end in
  count is_exec (trace (main E args w).1) = count is_exec (trace w) + jobs /\
  count is_savefig (trace (main E args w).1) <= count is_savefig (trace w) + jobs.
Proof.
  intros jobs. rewrite main_run. cbn [fst].
  rewrite !after_remove_counts by reflexivity.
  apply main_body_counts.
Qed.

(** X8: if the predictor leaves the seed table alone, every job of the run
    finds the table SeedExtractor wrote: the script itself never writes to
    it while the targets are processed. *)
Theorem seed_table_kept_during_jobs (E : Env) (args : Args) (w : World) :
  (forall cmd files,
     (run_cmd E cmd files).2 !! "miR_seeds_temp.txt" = files !! "miR_seeds_temp.txt") ->
  failure (mir args) = None ->
  fs (main_body E args w).1 !! "miR_seeds_temp.txt"
  = Some (seed_rows (Taxon args) (items (mir args))).
Proof.
  intros Hkeep Hmir. unfold main_body, bind. rewrite seed_extractor_run, Hmir.
  cbn [stream_end]. rewrite loop_keeps_seeds by exact Hkeep.
  cbn [fs]. apply lookup_insert_eq.
Qed.

Lemma seed_table_kept_during_jobs_witness :
  fs (main_body (table_env "out" demo_utr demo_table)
        {| utr := {| items := [demo_utr; demo_utr]; failure := None |};
           mir := {| items := [{| rec_id := "mmu-let-7a";
                                 rec_seq := "UGAGGUAGUAGGUUGUAUAGUU" |}];
                     failure := None |};
           output := "out"; Taxon := 10090 |} empty_world).1
    !! "miR_seeds_temp.txt"
  = Some ("mmu-let-7a" +:+ TAB +:+ "GAGGUAG" +:+ TAB +:+ "10090" +:+ NL).
Proof.
  apply (seed_table_kept_during_jobs (table_env "out" demo_utr demo_table)
           {| utr := {| items := [demo_utr; demo_utr]; failure := None |};
              mir := {| items := [{| rec_id := "mmu-let-7a";
                                    rec_seq := "UGAGGUAGUAGGUUGUAUAGUU" |}];
                        failure := None |};
              output := "out"; Taxon := 10090 |} empty_world).
  - intros cmd files. cbn [table_env stub_env run_cmd snd foldr fst].
    apply lookup_insert_ne. discriminate.
  - reflexivity.
Defined.

(** *** Cleaning up and the end-to-end run *)

Lemma after_remove_ok (E : Env) (f : string) (w : World) :
  os_remove E f (fs w) = None ->
  fs (after_remove E f w) = delete f (fs w).
Proof.
  intros Hok. unfold after_remove. destruct (fs w !! f) eqn:Hf.
  - rewrite Hok. reflexivity.
  - symmetry. now apply delete_id.
Qed.

(** X9: the [finally] block touches nothing but the two temp files: every
    other file (the figures, the error log, the predictor's tables) is left
    as it was; and when neither temp file exists the block does nothing at
    all. *)
Theorem cleanup_only_temp_files (E : Env) (w : World) :
  (forall g, g <> "miR_seeds_temp.txt" -> g <> "UTRs_temp.txt" ->
             fs (cleanup E w).1 !! g = fs w !! g) /\
  (fs w !! "miR_seeds_temp.txt" = None -> fs w !! "UTRs_temp.txt" = None ->
   cleanup E w = (w, Ok tt)).
Proof.
  rewrite cleanup_run. cbn [fst]. split.
  - intros g H1 H2. rewrite !after_remove_other by congruence. reflexivity.
  - intros H1 H2. unfold after_remove. rewrite H1, H2. reflexivity.
Qed.

Lemma cleanup_only_temp_files_witness :
  let w := {| fs := {[ "utr_1_out.png" := "PNG" ]}; trace := [] |} in
  fs (cleanup (stub_env 0 "" []) w).1 !! "utr_1_out.png" = Some "PNG" /\
  cleanup (stub_env 0 "" []) w = (w, Ok tt).
Proof.
  intros w. split.
  - rewrite (proj1 (cleanup_only_temp_files (stub_env 0 "" []) w) "utr_1_out.png")
      by discriminate.
    reflexivity.
  - apply (proj2 (cleanup_only_temp_files (stub_env 0 "" []) w)); reflexivity.
Defined.

(** X10: end to end.  With miRNA records read without error, one target of
    at least 20 characters, a predictor that exits with 0 and leaves a table
    with a header, a plotting library that succeeds and an [os.remove] that
    does not fail, [main] returns normally; the files at the end are those
    the predictor left plus the figure of the target, minus the two temp
    files; that figure is the only one saved. *)
Theorem single_target_run (E : Env) (taxon : Z) (output_file : string)
    (mirna : list SeqRecord) (u : SeqRecord) (w : World) (stdout : string)
    (files : gmap string string) (text header : string) (rows : list string)
    (bytes : string) :
  let args := {| utr := {| items := [u]; failure := None |};
                 mir := {| items := mirna; failure := None |};
                 output := output_file; Taxon := taxon |} in
  let seeded := (seed_extractor taxon {| items := mirna; failure := None |} w).1 in
  let png := output_file_utr_of output_file u +:+ ".png" in
  let fig := job_figure u (features_of rows) in
  20 <= String.length (rec_seq u) ->
  run_cmd E (predictor_cmd output_file u) (fs (job_started taxon output_file u seeded))
  = (0%Z, stdout, files) ->
  files !! output_file_utr_of output_file u = Some text ->
  file_lines text = header :: rows ->
  render E png fig = Ok bytes ->
  (forall f files0, os_remove E f files0 = None) ->
  (main E args w).2 = Ok tt /\
  fs (main E args w).1 =
    delete "UTRs_temp.txt" (delete "miR_seeds_temp.txt" (<[png := bytes]> files)) /\
  fs (main E args w).1 !! png = Some bytes /\
  fs (main E args w).1 !! "miR_seeds_temp.txt" = None /\
  fs (main E args w).1 !! "UTRs_temp.txt" = None /\
  In (ESavefig png fig) (trace (main E args w).1) /\
  count is_savefig (trace (main E args w).1) <= count is_savefig (trace w) + 1.
Proof.
  intros args seeded png fig Hlen Hrun Hout Hlines Hr Hrm.
  pose proof (job_saves_figure E taxon output_file u seeded _ _ _ _ _
                Hlen Hrun Hout Hlines bytes Hr) as Hjob.
  assert (main_body E args w =
          ({| fs := <[png := bytes]> files;
              trace := (trace (job_started taxon output_file u seeded)
                        ++ [EExec (predictor_cmd output_file u)]
                        ++ diagnostics E rows) ++ [ESavefig png fig] |}, Ok tt))
    as Hbody.
  { unfold main_body. cbn [Taxon mir utr output items failure args].
    unfold bind at 1.
    destruct (seed_extractor taxon {| items := mirna; failure := None |} w)
      as [w1 r] eqn:Hseed.
    pose proof (seed_extractor_run taxon {| items := mirna; failure := None |} w)
      as Hrun1.
    rewrite Hseed in Hrun1. injection Hrun1 as Hw1 Hr1. cbn [failure stream_end] in Hr1.
    subst r. cbn [for_each]. unfold bind, ret.
    change w1 with seeded. rewrite Hjob. reflexivity. }
  assert (fs (main E args w).1 =
          delete "UTRs_temp.txt" (delete "miR_seeds_temp.txt" (<[png := bytes]> files)))
    as Hfs.
  { rewrite main_run, Hbody. cbn [fst].
    rewrite !after_remove_ok by apply Hrm. reflexivity. }
  destruct (png_not_txt (output_file_utr_of output_file u)) as [Hp1 Hp2].
  fold png in Hp1, Hp2.
  split; [rewrite main_run, Hbody; reflexivity|].
  split; [exact Hfs|].
  split.
  { rewrite Hfs, !lookup_delete_ne by congruence. apply lookup_insert_eq. }
  split.
  { rewrite Hfs, lookup_delete_ne by discriminate. apply lookup_delete_eq. }
  split; [rewrite Hfs; apply lookup_delete_eq|].
  split.
  { rewrite main_run, Hbody. cbn [fst].
    do 2 apply after_remove_trace. cbn [trace]. apply in_app_iff. right. now left. }
  rewrite main_run. cbn [fst]. rewrite !after_remove_counts by reflexivity.
  pose proof (main_body_counts E args w) as Hcount. cbv zeta in Hcount.
  cbn [mir failure utr items args List.filter] in Hcount.
  destruct (long_enough u); cbn [length] in Hcount; lia.
Qed.

Lemma single_target_run_witness :
  let E := table_env "out" demo_utr demo_table in
  let args := {| utr := {| items := [demo_utr]; failure := None |};
                 mir := {| items := [{| rec_id := "mmu-miR-1a";
                                       rec_seq := "UGGAAUGUAAAGAAGUAUGUAUU" |}];
                           failure := None |};
                 output := "out"; Taxon := 10090 |} in
  (main E args empty_world).2 = Ok tt /\
  fs (main E args empty_world).1 !! "utr_1_out.png" = Some "PNG" /\
  fs (main E args empty_world).1 !! "miR_seeds_temp.txt" = None /\
  fs (main E args empty_world).1 !! "UTRs_temp.txt" = None.
Proof.
  intros E args.
  edestruct (single_target_run E 10090 "out"
               [{| rec_id := "mmu-miR-1a"; rec_seq := "UGGAAUGUAAAGAAGUAUGUAUU" |}]
               demo_utr empty_world ""
               (run_cmd E (predictor_cmd "out" demo_utr)
                  (fs (job_started 10090 "out" demo_utr
                         (seed_extractor 10090 (mir args) empty_world).1))).2
               demo_table
               (tsv ["a_Gene_ID"; "miRNA_family_ID"; "species_ID"; "MSA_start";
                     "MSA_end"; "UTR_start"; "UTR_end"; "Group_num"; "Site_type"]
                +:+ NL)
               [tsv ["utr|1"; "mmu-miR-1"; "10090"; "10"; "17"; "10"; "17"; "1";
                     "7mer-m8"] +:+ NL]
               "PNG")
    as (H1 & _ & H3 & H4 & H5 & _).
  - vm_compute. lia.
  - reflexivity.
  - reflexivity.
  - reflexivity.
  - reflexivity.
  - reflexivity.
  - split; [exact H1|]. split; [exact H3|]. split; [exact H4 | exact H5].
Defined.

(** *** More on FeatureParser *)

(** X11: the first line of the predictor's table is dropped without being
    looked at, whatever it holds: a table that starts with a data row loses
    that row. *)
Theorem header_always_dropped (E : Env) (first rest : string) (w : World) :
  all_chars not_newline first = true ->
  feature_parser E (first +:+ NL +:+ rest) w = parse_lines E (file_lines rest) [] w.
Proof.
  intros Hh. unfold feature_parser. rewrite file_lines_first by exact Hh.
  reflexivity.
Qed.

Lemma header_always_dropped_witness :
  feature_parser (stub_env 0 "" [])
    (tsv ["utr|1"; "mmu-miR-1"; "10090"; "10"; "17"; "10"; "17"; "1"; "7mer-m8"]
     +:+ NL +:+ "") empty_world
  = (empty_world, Ok []).
Proof.
  rewrite (header_always_dropped (stub_env 0 "" [])
             (tsv ["utr|1"; "mmu-miR-1"; "10090"; "10"; "17"; "10"; "17"; "1";
                   "7mer-m8"]) "" empty_world) by reflexivity.
  reflexivity.
Defined.

Lemma diagnostics_count (E : Env) (lines : list string) :
  length (features_of lines) + count is_print (diagnostics E lines) = length lines.
Proof.
  induction lines as [|line lines IH]; [reflexivity|].
  cbn [features_of diagnostics]. destruct (parse_row line).
  - cbn [length]. lia.
  - unfold row_diagnostic. cbn [count is_print length]. lia.
Qed.

(** X12: the row loop never raises and never touches a file, and every row
    gives either one feature or one printed line, never both and never
    neither: features added plus lines printed equals the number of rows. *)
Theorem every_row_accounted (E : Env) (lines : list string)
    (feats : list GraphicFeature) (w : World) :
  exists out w',
    parse_lines E lines feats w = (w', Ok out) /\
    fs w' = fs w /\
    length out + count is_print (trace w')
    = length feats + count is_print (trace w) + length lines.
Proof.
  rewrite parse_lines_run. eexists _, _. split; [reflexivity|].
  split; [reflexivity|]. cbn [trace].
  rewrite length_app, count_app. pose proof (diagnostics_count E lines). lia.
Qed.

Lemma parse_row_ok (line : string) (f : GraphicFeature) :
  parse_row line = Ok f ->
  exists c1 c3 c4 c8,
    let content := split_tab (strip line) in
    content !! 1 = Some c1 /\ content !! 3 = Some c3 /\
    content !! 4 = Some c4 /\ content !! 8 = Some c8 /\
    py_int c3 = Ok (start f) /\ py_int c4 = Ok (end_ f) /\
    strand f = 1%Z /\ color f = get_color c8 /\ label f = sub_mmu c1.
Proof.
  unfold parse_row, getitem. set (content := split_tab (strip line)).
  destruct (content !! 3) as [c3|]; [|discriminate].
  destruct (py_int c3) as [z3|] eqn:H3; [|discriminate].
  destruct (content !! 4) as [c4|]; [|discriminate].
  destruct (py_int c4) as [z4|] eqn:H4; [|discriminate].
  destruct (content !! 8) as [c8|]; [|discriminate].
  destruct (content !! 1) as [c1|]; [|discriminate].
  intros [= <-]. exists c1, c3, c4, c8. cbn.
  repeat split; (reflexivity || assumption).
Qed.

Lemma get_color_in_palette (s : string) : In (get_color s) palette.
Proof.
  unfold get_color, color_table, palette. cbn [list_to_map foldr fst snd].
  destruct (decide (s = "6mer")) as [->|H1]; [cbn; tauto|].
  destruct (decide (s = "7mer-1a")) as [->|H2]; [cbn; tauto|].
  destruct (decide (s = "7mer-m8")) as [->|H3]; [cbn; tauto|].
  destruct (decide (s = "8mer-1a")) as [->|H4]; [cbn; tauto|].
  rewrite !lookup_insert_ne, lookup_empty by congruence. cbn. tauto.
Qed.

(** X13: every feature the parser returns is on the forward strand and has
    one of the five colors of [get_color]; its start and end are what
    [int()] reads in columns 4 and 5 of its row, with no check that they are
    ordered or inside the sequence. *)
Theorem features_well_colored (E : Env) (lines : list string) (w : World) :
  exists out w',
    parse_lines E lines [] w = (w', Ok out) /\
    Forall (fun f => strand f = 1%Z /\ In (color f) palette /\
                     exists line c3 c4,
                       In line lines /\
                       split_tab (strip line) !! 3 = Some c3 /\
                       split_tab (strip line) !! 4 = Some c4 /\
                       py_int c3 = Ok (start f) /\ py_int c4 = Ok (end_ f)) out.
Proof.
  rewrite parse_lines_run. eexists _, _. split; [reflexivity|].
  cbn [app]. induction lines as [|line lines IH]; [constructor|].
  cbn [features_of]. destruct (parse_row line) as [f|e] eqn:Hrow.
  - constructor.
    + destruct (parse_row_ok line f Hrow)
        as (c1 & c3 & c4 & c8 & H1 & H3 & H4 & H8 & Hs & He & Hst & Hc & Hl).
      split; [exact Hst|]. split; [rewrite Hc; apply get_color_in_palette|].
      exists line, c3, c4. split; [now left|]. auto.
    + eapply Forall_impl; [exact IH|].
      intros g (Hst & Hc & l & c3 & c4 & Hin & Hrest).
      split; [exact Hst|]. split; [exact Hc|].
      exists l, c3, c4. split; [now right | exact Hrest].
  - eapply Forall_impl; [exact IH|].
    intros g (Hst & Hc & l & c3 & c4 & Hin & Hrest).
    split; [exact Hst|]. split; [exact Hc|].
    exists l, c3, c4. split; [now right | exact Hrest].
Qed.

(** *** Colors, identifiers and labels *)

(** X14: the legend drawn on every figure agrees with [get_color]: each
    legend entry shows the color [get_color] gives to its label, and a
    feature whose color is not the fallback has its match type in the
    legend. *)
Theorem legend_matches_colors :
  (forall c l, In (c, l) legend -> get_color l = c) /\
  (forall s, get_color s <> "#ccccff" -> In (get_color s, s) legend).
Proof.
  split.
  - intros c l Hin. unfold legend in Hin. cbn [In] in Hin.
    destruct Hin as [[= <- <-] | [[= <- <-] | [[= <- <-] | [[= <- <-] | []]]]];
      reflexivity.
  - intros s. unfold get_color, color_table, legend.
    cbn [list_to_map foldr fst snd].
    destruct (decide (s = "6mer")) as [->|H1]; [cbn; tauto|].
    destruct (decide (s = "7mer-1a")) as [->|H2]; [cbn; tauto|].
    destruct (decide (s = "7mer-m8")) as [->|H3]; [cbn; tauto|].
    destruct (decide (s = "8mer-1a")) as [->|H4]; [cbn; tauto|].
    rewrite !lookup_insert_ne, lookup_empty by congruence. cbn. congruence.
Qed.

Lemma legend_matches_colors_witness :
  get_color "7mer-1a" = "#9999ff" /\ In (get_color "8mer-1a", "8mer-1a") legend.
Proof.
  split.
  - apply (proj1 legend_matches_colors). cbn. tauto.
  - apply (proj2 legend_matches_colors). discriminate.
Defined.

(** X15: the clean-up keeps the length of an identifier and leaves only
    characters of [[A-Za-z0-9_-]], character by character: an allowed
    character stays where it is, any other becomes an underscore. *)
Theorem sanitize_shape (s : string) :
  String.length (sanitize s) = String.length s /\
  all_chars id_char (sanitize s) = true /\
  forall n, get n (sanitize s)
            = (fun c => if id_char c then c else "_"%char) <$> get n s.
Proof.
  split; [|split; [apply sanitize_all_id_chars|]].
  - induction s as [|c s IH]; [reflexivity|]. cbn. now rewrite IH.
  - induction s as [|c s IH]; intros n; [reflexivity|].
    destruct n as [|n]; [reflexivity|]. cbn [sanitize get]. apply IH.
Qed.

Lemma sanitize_app (a b : string) : sanitize (a +:+ b) = sanitize a +:+ sanitize b.
Proof.
  induction a as [|c a IH]; [reflexivity|]. cbn. now rewrite IH.
Qed.

(** The clean-up is not injective: two target identifiers that differ only
    in a character outside [[A-Za-z0-9_-]] get the same output file and the
    same predictor command. *)
Lemma sanitize_collides (output_file : string) (a b : string) (c1 c2 : ascii)
    (seq1 seq2 : string) :
  id_char c1 = false -> id_char c2 = false ->
  let u1 := {| rec_id := a +:+ String c1 b; rec_seq := seq1 |} in
  let u2 := {| rec_id := a +:+ String c2 b; rec_seq := seq2 |} in
  output_file_utr_of output_file u1 = output_file_utr_of output_file u2 /\
  predictor_cmd output_file u1 = predictor_cmd output_file u2.
Proof.
  intros H1 H2 u1 u2.
  assert (sanitize (rec_id u1) = sanitize (rec_id u2)) as Hsame.
  { unfold u1, u2. cbn [rec_id]. rewrite !sanitize_app. cbn [sanitize].
    rewrite H1, H2. reflexivity. }
  unfold predictor_cmd, output_file_utr_of. rewrite Hsame. split; reflexivity.
Qed.

Lemma sub_mmu_skip (c : ascii) (s : string) :
  not_m c = true -> sub_mmu (String c s) = String c (sub_mmu s).
Proof.
  intros Hc. destruct c as [[] [] [] [] [] [] [] []];
    try discriminate Hc; reflexivity.
Qed.

(** X17: the label loses the text [mmu-] wherever it stands, not only in
    front: after any prefix without the letter [m] the occurrence is removed
    and the scan goes on behind it. *)
Theorem sub_mmu_anywhere (a b : string) :
  all_chars not_m a = true ->
  sub_mmu (a +:+ "mmu-" +:+ b) = a +:+ sub_mmu b.
Proof.
  induction a as [|c a IH]; intros Ha; [reflexivity|].
  cbn [all_chars] in Ha. apply andb_true_iff in Ha as [Hc Ha].
  change (String c a +:+ "mmu-" +:+ b) with (String c (a +:+ "mmu-" +:+ b)).
  rewrite sub_mmu_skip by exact Hc. rewrite IH by exact Ha. reflexivity.
Qed.

Lemma sub_mmu_anywhere_witness :
  sub_mmu ("hsa-" +:+ "mmu-" +:+ "let-7a") = "hsa-" +:+ sub_mmu "let-7a".
Proof. apply (sub_mmu_anywhere "hsa-" "let-7a"). reflexivity. Defined.

(** *** White space and columns *)

Lemma lstrip_blank_nl (s : string) : lstrip s = "" -> lstrip (s +:+ NL) = "".
Proof.
  induction s as [|c s IH]; [reflexivity|]. cbn [lstrip].
  change (String c s +:+ NL) with (String c (s +:+ NL)). cbn [lstrip].
  destruct (isspace c); [exact IH | discriminate].
Qed.

Lemma rstrip_nl (s : string) : rstrip (s +:+ NL) = rstrip s.
Proof.
  induction s as [|c s IH]; [reflexivity|].
  change (String c s +:+ NL) with (String c (s +:+ NL)). cbn [rstrip].
  rewrite IH. reflexivity.
Qed.

Lemma strip_nl (s : string) : strip (s +:+ NL) = strip s.
Proof.
  unfold strip. destruct (lstrip s) eqn:Hs.
  - rewrite lstrip_blank_nl by exact Hs. reflexivity.
  - rewrite lstrip_app by (rewrite Hs; discriminate).
    rewrite rstrip_nl, Hs. reflexivity.
Qed.

(** X18: a row is stripped of surrounding white space, tabs included, before
    it is split: its final newline does not count, and a row whose first
    cell is empty is read with every column shifted left by one, as if that
    cell were not there. *)
Theorem row_stripped_before_split (c : string) (cols : list string) :
  parse_row (tsv (c :: cols) +:+ NL) = parse_row (tsv (c :: cols)) /\
  parse_row (tsv ("" :: c :: cols)) = parse_row (tsv (c :: cols)).
Proof.
  split.
  - unfold parse_row. rewrite strip_nl. reflexivity.
  - unfold parse_row. rewrite (tsv_cons "" (c :: cols)). reflexivity.
Qed.

(** X19: splitting on tabs undoes joining with tabs: a row made of at least
    one cell, none of which holds a tab, splits back into exactly its
    cells. *)
Theorem split_tab_tsv (cols : list string) :
  cols <> [] ->
  Forall (fun c => all_chars not_tab c = true) cols ->
  split_tab (tsv cols) = cols.
Proof.
  intros Hne Hcols. induction Hcols as [|c more Hc Hmore IH]; [congruence|].
  rewrite tsv_cons. destruct more as [|d more].
  - rewrite append_empty_r. apply split_tab_last, Hc.
  - rewrite split_tab_cell by exact Hc. rewrite IH by discriminate. reflexivity.
Qed.

Lemma split_tab_tsv_witness :
  split_tab (tsv ["utr1"; ""; "10"]) = ["utr1"; ""; "10"].
Proof.
  apply (split_tab_tsv ["utr1"; ""; "10"]).
  - discriminate.
  - repeat constructor.
Defined.

(** *** The events of a run, record by record *)

Section Segments.

Variable E : Env.
Variable taxon : Z.
Variable output_file : string.





End Segments.



(** *** Identifiers that clean up to the same name *)

(** X16: two target identifiers that differ only in a character outside
    [[A-Za-z0-9_-]] share the output file, the predictor command and the
    image name; when the jobs of both succeed one after the other, the image
    of the first is on disk after the first job and is replaced by the image
    of the second after the second job, although both figures were saved. *)
Theorem colliding_ids_overwrite (E : Env) (taxon : Z) (output_file : string)
    (a b : string) (c1 c2 : ascii) (seq1 seq2 : string) (w : World)
    (stdout1 stdout2 : string) (files1 files2 : gmap string string)
    (text1 text2 header1 header2 : string) (rows1 rows2 : list string)
    (bytes1 bytes2 : string) :
  let u1 := {| rec_id := a +:+ String c1 b; rec_seq := seq1 |} in
  let u2 := {| rec_id := a +:+ String c2 b; rec_seq := seq2 |} in
  let png := output_file_utr_of output_file u1 +:+ ".png" in
  let w1 := (process_utr E taxon output_file u1 w).1 in
  let w2 := (process_utr E taxon output_file u2 w1).1 in
  id_char c1 = false -> id_char c2 = false ->
  20 <= String.length seq1 -> 20 <= String.length seq2 ->
  run_cmd E (predictor_cmd output_file u1) (fs (job_started taxon output_file u1 w))
  = (0%Z, stdout1, files1) ->
  files1 !! output_file_utr_of output_file u1 = Some text1 ->
  file_lines text1 = header1 :: rows1 ->
  render E png (job_figure u1 (features_of rows1)) = Ok bytes1 ->
  run_cmd E (predictor_cmd output_file u2) (fs (job_started taxon output_file u2 w1))
  = (0%Z, stdout2, files2) ->
  files2 !! output_file_utr_of output_file u2 = Some text2 ->
  file_lines text2 = header2 :: rows2 ->
  render E png (job_figure u2 (features_of rows2)) = Ok bytes2 ->
  output_file_utr_of output_file u1 = output_file_utr_of output_file u2 /\
  predictor_cmd output_file u1 = predictor_cmd output_file u2 /\
  fs w1 !! png = Some bytes1 /\
  fs w2 !! png = Some bytes2 /\
  In (ESavefig png (job_figure u1 (features_of rows1))) (trace w2) /\
  In (ESavefig png (job_figure u2 (features_of rows2))) (trace w2).
Proof.
  intros u1 u2 png w1 w2 Hc1 Hc2 Hlen1 Hlen2 Hrun1 Hout1 Hlines1 Hr1
         Hrun2 Hout2 Hlines2 Hr2.
  destruct (sanitize_collides output_file a b c1 c2 seq1 seq2 Hc1 Hc2)
    as [Hname Hcmd].
  fold u1 u2 in Hname, Hcmd.
  assert (output_file_utr_of output_file u2 +:+ ".png" = png) as Hpng
    by (unfold png; rewrite Hname; reflexivity).
  rewrite <- Hpng in Hr2.
  pose proof (job_saves_figure E taxon output_file u1 w _ _ _ _ _
                Hlen1 Hrun1 Hout1 Hlines1 bytes1 Hr1) as Hjob1.
  pose proof (job_saves_figure E taxon output_file u2 w1 _ _ _ _ _
                Hlen2 Hrun2 Hout2 Hlines2 bytes2 Hr2) as Hjob2.
  rewrite Hpng in Hjob2.
  split; [exact Hname|]. split; [exact Hcmd|].
  unfold w2. rewrite Hjob2. cbn [fst fs trace].
  unfold w1 at 1. rewrite Hjob1. cbn [fst fs].
  split; [apply lookup_insert_eq|]. split; [apply lookup_insert_eq|].
  split.
  - apply in_app_iff. left. apply in_app_iff. left.
    unfold job_started, emit. cbn [trace].
    apply in_app_iff. left. apply in_app_iff. left. apply in_app_iff. left.
    unfold w1. rewrite Hjob1. cbn [fst trace].
    apply in_app_iff. right. now left.
  - apply in_app_iff. right. now left.
Qed.

Lemma colliding_ids_overwrite_witness :
  let E := titled_env "out" demo_utr demo_table in
  let u1 := {| rec_id := "utr" +:+ String "|" "1"; rec_seq := rec_seq demo_utr |} in
  let u2 := {| rec_id := "utr" +:+ String "." "1"; rec_seq := rec_seq demo_utr |} in
  let w1 := (process_utr E 10090 "out" u1 empty_world).1 in
  let w2 := (process_utr E 10090 "out" u2 w1).1 in
  fs w1 !! "utr_1_out.png" = Some "utr|1 sequence" /\
  fs w2 !! "utr_1_out.png" = Some "utr.1 sequence".
Proof.
  intros E u1 u2 w1 w2.
  edestruct (colliding_ids_overwrite E 10090 "out" "utr" "1" "|" "."
               (rec_seq demo_utr) (rec_seq demo_utr) empty_world "" ""
               (run_cmd E (predictor_cmd "out" u1)
                  (fs (job_started 10090 "out" u1 empty_world))).2
               (run_cmd E (predictor_cmd "out" u2)
                  (fs (job_started 10090 "out" u2 w1))).2
               demo_table demo_table
               (tsv ["a_Gene_ID"; "miRNA_family_ID"; "species_ID"; "MSA_start";
                     "MSA_end"; "UTR_start"; "UTR_end"; "Group_num"; "Site_type"]
                +:+ NL)
               (tsv ["a_Gene_ID"; "miRNA_family_ID"; "species_ID"; "MSA_start";
                     "MSA_end"; "UTR_start"; "UTR_end"; "Group_num"; "Site_type"]
                +:+ NL)
               [tsv ["utr|1"; "mmu-miR-1"; "10090"; "10"; "17"; "10"; "17"; "1";
                     "7mer-m8"] +:+ NL]
               [tsv ["utr|1"; "mmu-miR-1"; "10090"; "10"; "17"; "10"; "17"; "1";
                     "7mer-m8"] +:+ NL]
               "utr|1 sequence" "utr.1 sequence")
    as (_ & _ & H1 & H2 & _).
  - reflexivity.
  - reflexivity.
  - vm_compute. lia.
  - vm_compute. lia.
  - reflexivity.
  - reflexivity.
  - reflexivity.
  - reflexivity.
  - reflexivity.
  - reflexivity.
  - reflexivity.
  - reflexivity.
  - split; [exact H1 | exact H2].
Defined.
